(** * Lazorkit example wallet: error normaliser, transfer hook, balance hook
      and wallet hook, embedded from the TypeScript sources.

    Layout of the development:
    - [Js]        : the fragment of JavaScript values and strings the hooks use;
    - [Errors]    : app/lib/errors.ts ([ERROR_MAPPINGS], [transformError]);
    - [Num]       : binary64 numbers ([Math.floor], [toFixed], comparisons);
    - [Eff]       : asynchronous functions as traces of effects;
    - [Solana]    : app/lib/solana/constants.ts, app/lib/validation.ts;
    - [Transfer]  : app/hooks/useTransfer.ts;
    - [Balance]   : app/hooks/useBalance.ts and [formatBalance] of WalletBalance;
    - [Lazorkit]  : app/lib/lazorkit/provider.tsx, app/hooks/useLazorkit.ts;
    - [Display]   : [formatAddress], the explorer links, and the components
                    TransactionStatus, WalletBalance and TransferForm;
    - [Reference] : predicates and sample worlds the properties are stated with;
    followed by the properties proved about them. *)

From Stdlib Require Import List String Ascii ZArith NArith Bool Lia.
From Stdlib Require Import QArith Qround SpecFloat Lqa.
Import ListNotations.

Set Implicit Arguments.
Set Warnings "-register-all".

(* ================================================================= *)
(** ** JavaScript strings and values *)

Module Js.

(** A JavaScript string is its sequence of UTF-16 code units. *)
Definition codeunit := N.
Definition jsstring := list codeunit.

(** A source literal made of ASCII characters, as its code units. *)
Definition lit (s : string) : jsstring :=
  map N_of_ascii (list_ascii_of_string s).

Fixpoint eqb (a b : jsstring) : bool :=
  match a, b with
  | [], [] => true
  | x :: a', y :: b' => N.eqb x y && eqb a' b'
  | _, _ => false
  end.

(** [s.startsWith(pat)]. *)
Fixpoint startsWith (pat s : jsstring) : bool :=
  match pat, s with
  | [], _ => true
  | p :: pat', c :: s' => N.eqb p c && startsWith pat' s'
  | _ :: _, [] => false
  end.

(** [s.includes(pat)]: [pat] occurs somewhere in [s]. *)
Fixpoint includes (s pat : jsstring) : bool :=
  startsWith pat s ||
  match s with
  | [] => false
  | _ :: s' => includes s' pat
  end.

(** ECMAScript WhiteSpace and LineTerminator code points, the ones
    [String.prototype.trim] removes. *)
Definition isWhiteSpace (c : codeunit) : bool :=
  existsb (N.eqb c)
    [0x0009; 0x000A; 0x000B; 0x000C; 0x000D; 0x0020; 0x00A0; 0x1680;
     0x2000; 0x2001; 0x2002; 0x2003; 0x2004; 0x2005; 0x2006; 0x2007;
     0x2008; 0x2009; 0x200A; 0x2028; 0x2029; 0x202F; 0x205F; 0x3000;
     0xFEFF]%N.

Fixpoint trimStart (s : jsstring) : jsstring :=
  match s with
  | [] => []
  | c :: s' => if isWhiteSpace c then trimStart s' else s
  end.

Definition trimEnd (s : jsstring) : jsstring := rev (trimStart (rev s)).

Definition trim (s : jsstring) : jsstring := trimEnd (trimStart s).

(** Truthiness of a string: the empty string is falsy. *)
Definition truthy (s : jsstring) : bool :=
  match s with [] => false | _ :: _ => true end.

(** A value of TypeScript type [unknown], by what [transformError] can
    observe of it: its [typeof] class, whether it is an [Error] instance,
    the properties reachable through [in] and member access, and the string
    [String(v)] yields.  Numbers, bigints, symbols, functions and objects
    carry that string ([shown]); a plain object shows as [[object Object]]. *)
Inductive value : Type :=
| VUndefined
| VNull
| VBoolean (b : bool)
| VNumber (shown : jsstring)
| VBigInt (shown : jsstring)
| VSymbol (shown : jsstring)
| VString (s : jsstring)
| VFunction (shown : jsstring) (props : list (jsstring * value))
| VError (shown : jsstring) (message : jsstring)
| VObject (shown : jsstring) (props : list (jsstring * value)).

(** [new Error(message)]. *)
Definition newError (message : jsstring) : value :=
  VError (match message with
          | [] => lit "Error"
          | _ => lit "Error: " ++ message
          end) message.

(** [String(v)]. *)
Definition String_ (v : value) : jsstring :=
  match v with
  | VUndefined => lit "undefined"
  | VNull => lit "null"
  | VBoolean true => lit "true"
  | VBoolean false => lit "false"
  | VNumber shown | VBigInt shown | VSymbol shown => shown
  | VString s => s
  | VFunction shown _ | VError shown _ | VObject shown _ => shown
  end.

(** Property lookup [o.key] on a property list. *)
Fixpoint get (props : list (jsstring * value)) (key : jsstring) : option value :=
  match props with
  | [] => None
  | (k, v) :: rest => if eqb k key then Some v else get rest key
  end.

(** [key in o]. *)
Definition has (props : list (jsstring * value)) (key : jsstring) : bool :=
  match get props key with Some _ => true | None => false end.

End Js.

(* ================================================================= *)
(** ** app/lib/errors.ts *)

Module Errors.
Import Js.

(** The regular expressions of the rule table are alternations of literal
    words, without flags: [Word w] matches the characters of [w], [Alt a b]
    is [a|b]. *)
Inductive regexp : Type :=
| Word (w : jsstring)
| Alt (a b : regexp).

(** Whether [re] matches at the start of [s]. *)
Fixpoint matchesHere (re : regexp) (s : jsstring) : bool :=
  match re with
  | Word w => startsWith w s
  | Alt a b => matchesHere a s || matchesHere b s
  end.

(** [re.test(s)]: [re] matches at some position of [s]. *)
Fixpoint test (re : regexp) (s : jsstring) : bool :=
  matchesHere re s ||
  match s with
  | [] => false
  | _ :: s' => test re s'
  end.

(** [pattern: string | RegExp]. *)
Inductive pattern : Type :=
| PString (p : jsstring)
| PRegExp (re : regexp).

Record mapping : Type := { pattern_of : pattern; message : jsstring }.

Definition str (p m : string) : mapping :=
  {| pattern_of := PString (lit p); message := lit m |}.

Definition ERROR_MAPPINGS : list mapping :=
  [ (* WebAuthn / Passkey errors *)
    str "NotAllowedError" "Passkey operation was cancelled or not allowed.";
    str "InvalidStateError" "A passkey already exists for this device.";
    str "NotSupportedError" "Passkeys are not supported on this device or browser.";
    str "SecurityError" "Security error. Please ensure you are using HTTPS.";
    str "AbortError" "The operation was aborted. Please try again.";
    str "ConstraintError" "The passkey does not meet the required constraints.";
    (* Network errors *)
    str "load failed" "Failed to connect to Lazorkit services. Please try again.";
    str "Load failed" "Failed to connect to Lazorkit services. Please try again.";
    str "NetworkError" "Network error. Please check your connection.";
    str "Failed to fetch" "Network error. Please check your connection.";
    {| pattern_of :=
         PRegExp (Alt (Word (lit "ECONNREFUSED"))
                      (Alt (Word (lit "ETIMEDOUT")) (Word (lit "ENOTFOUND"))));
       message := lit "Unable to connect to the server. Please try again later." |};
    str "timeout" "Request timed out. Please try again.";
    str "CORS" "Connection blocked. Please try again.";
    (* Lazorkit specific errors *)
    str "passkeyPublicKey must be exactly 33 bytes, got 0"
        "Passkey data not found. Please create a new wallet instead of logging in.";
    str "passkeyPublicKey must be exactly 33 bytes"
        "Invalid passkey data. Please try creating a new wallet.";
    str "paymaster" "Paymaster service unavailable. Please try again later.";
    str "smart wallet" "Smart wallet operation failed. Please try again.";
    (* Solana RPC errors *)
    str "Transaction simulation failed"
        "Transaction simulation failed. Please check your inputs.";
    str "Insufficient funds" "Insufficient funds for this transaction.";
    str "Blockhash not found" "Transaction expired. Please try again.";
    str "Account not found" "The specified account was not found.";
    (* Session errors *)
    str "Session expired" "Your session has expired. Please log in again.";
    str "Invalid session" "Invalid session. Please log in again.";
    (* Wallet errors *)
    str "Wallet not connected" "Please connect your wallet first.";
    str "User rejected" "The request was rejected." ].

Definition FALLBACK : jsstring := lit "An unexpected error occurred.".

(** The test of one loop iteration: [includes] for a string pattern,
    [test] for a regular expression. *)
Definition applies (m : mapping) (errorMessage : jsstring) : bool :=
  match pattern_of m with
  | PString p => includes errorMessage p
  | PRegExp re => test re errorMessage
  end.

(** The [for ... of] loop over the table, returning at the first hit. *)
Fixpoint scan (table : list mapping) (errorMessage : jsstring) : option jsstring :=
  match table with
  | [] => None
  | m :: rest =>
      if applies m errorMessage then Some (message m) else scan rest errorMessage
  end.

(** The [if / else if] chain that picks the message string; [None] is the
    final [else] branch, which returns the fallback at once. *)
Definition errorMessageOf (error : value) : option jsstring :=
  match error with
  | VError _ message => Some message
  | VString s => Some s
  | VObject _ props =>
      match get props (lit "message") with
      | Some m => Some (String_ m)
      | None => None
      end
  | _ => None
  end.

Definition transformErrorWith (table : list mapping) (error : value) : jsstring :=
  match error with
  | VNull | VUndefined => FALLBACK
  | _ =>
      match errorMessageOf error with
      | None => FALLBACK
      | Some errorMessage =>
          match scan table errorMessage with
          | Some message => message
          | None =>
              let t := trim errorMessage in
              if truthy t then t else FALLBACK
          end
      end
  end.

Definition transformError (error : value) : jsstring :=
  transformErrorWith ERROR_MAPPINGS error.

End Errors.

(* ================================================================= *)
(** ** Numbers: IEEE 754 binary64 *)

Module Num.
Import Js.

Definition prec : Z := 53.
Definition emax : Z := 1024.

(** A JavaScript number. *)
Definition number : Type := spec_float.

(** The number an integer literal denotes. *)
Definition ofZ (n : Z) : number := binary_normalize prec emax n 0 false.

(** The number a decimal literal [num / den] denotes, for integers that are
    exact in binary64: the quotient rounded to nearest, which is what the
    correctly rounded division yields. *)
Definition literal (num den : Z) : number := SFdiv prec emax (ofZ num) (ofZ den).

Definition mul (x y : number) : number := SFmul prec emax x y.
Definition div (x y : number) : number := SFdiv prec emax x y.

(** [x <= y], [x < y] and [x === y] on numbers. *)
Definition leb (x y : number) : bool := SFleb x y.
Definition ltb (x y : number) : bool := SFltb x y.
Definition strictEq (x y : number) : bool := SFeqb x y.

(** The rational a finite number [(-1)^s * m * 2^e] stands for. *)
Definition valueQ (s : bool) (m : positive) (e : Z) : Q :=
  let sm := cond_Zopp s (Zpos m) in
  match e with
  | Z0 => inject_Z sm
  | Zpos p => inject_Z (sm * 2 ^ Zpos p)%Z
  | Zneg p => Qmake sm (2 ^ p)%positive
  end.

(** [Math.floor(x)]: the greatest integral number not above [x]; zeros,
    infinities and NaN are returned unchanged. *)
Definition Math_floor (x : number) : number :=
  match x with
  | S754_finite s m e => ofZ (Qfloor (valueQ s m e))
  | _ => x
  end.

(** Decimal digits of a natural number, most significant first, without
    leading zeros ([0] is the single digit [0]). *)
Definition digit (d : Z) : codeunit := (48 + Z.to_N d)%N.

Fixpoint digitsAcc (fuel : nat) (n : Z) (acc : jsstring) : jsstring :=
  match fuel with
  | O => digit (n mod 10)%Z :: acc
  | S fuel' =>
      if (n <? 10)%Z then digit (n mod 10)%Z :: acc
      else digitsAcc fuel' (n / 10)%Z (digit (n mod 10)%Z :: acc)
  end.

Definition digits (n : Z) : jsstring := digitsAcc (Z.to_nat (Z.log2 n)) n [].

Section ToFixed.

(** [Number::toString], to which [toFixed] defers for NaN, the infinities
    and magnitudes of [10^21] and more. *)
Variable Number_toString : number -> jsstring.

(** [x.toFixed(f)] for [0 <= f <= 100], after ECMA-262 21.1.3.3: [n] is the
    integer for which [n / 10^f - x] is closest to zero, the larger one of
    two; its digits are padded with zeros to [f + 1] places and the point is
    set before the last [f]. *)
Definition toFixed (x : number) (f : nat) : jsstring :=
  match x with
  | S754_zero _ =>
      match f with
      | O => lit "0"
      | _ => lit "0." ++ repeat (digit 0) f
      end
  | S754_finite s m e =>
      let x := valueQ false m e in
      if Qle_bool (inject_Z (10 ^ 21)%Z) x then Number_toString (S754_finite s m e)
      else
        let n := Qfloor (x * inject_Z (10 ^ Z.of_nat f)%Z + (1 # 2))%Q in
        let m := digits n in
        let m := repeat (digit 0) (S f - List.length m) ++ m in
        let k := List.length m in
        let m :=
          match f with
          | O => m
          | _ => firstn (k - f) m ++ lit "." ++ skipn (k - f) m
          end in
        (if s then lit "-" else []) ++ m
  | _ => Number_toString x
  end.

End ToFixed.

End Num.

(* ================================================================= *)
(** ** Asynchronous functions as traces *)

Module Eff.
Import Js.

(** The run of an [async] function: the effects it performs, in order, and
    how its promise settles, resolved with a result or rejected with the
    value thrown. *)
Definition M (E A : Type) : Type := (list E * (A + value))%type.

Definition ret {E A} (a : A) : M E A := ([], inl a).
Definition throw {E A} (err : value) : M E A := ([], inr err).
Definition emit {E} (ev : E) : M E unit := ([ev], inl tt).

Definition bind {E A B} (m : M E A) (k : A -> M E B) : M E B :=
  match m with
  | (t, inl a) => let (t', r) := k a in (t ++ t', r)
  | (t, inr err) => (t, inr err)
  end.

(** [try { m } catch (err) { h err }]. *)
Definition tryCatch {E A} (m : M E A) (h : value -> M E A) : M E A :=
  match m with
  | (t, inr err) => let (t', r) := h err in (t ++ t', r)
  | _ => m
  end.

(** [try { m } finally { f }]: [f] runs on both exits; the outcome is that
    of [m] unless [f] itself throws. *)
Definition tryFinally {E A} (m : M E A) (f : M E unit) : M E A :=
  let (t, r) := m in
  match f with
  | (t', inl _) => (t ++ t', r)
  | (t', inr err) => (t ++ t', inr err)
  end.

(** An external call that either returns normally or throws. *)
Definition orThrow {E} (r : option value) : M E unit :=
  match r with
  | None => ret tt
  | Some err => throw err
  end.

Definition trace {E A} (m : M E A) : list E := fst m.
Definition outcome {E A} (m : M E A) : A + value := snd m.

End Eff.

Declare Scope eff_scope.
Delimit Scope eff_scope with eff.
Notation "x <- m ;; k" := (Eff.bind m (fun x => k))
  (at level 61, m at next level, right associativity) : eff_scope.
Notation "m ;; k" := (Eff.bind m (fun _ => k))
  (at level 61, right associativity) : eff_scope.

(* ================================================================= *)
(** ** app/lib/solana/constants.ts and app/lib/validation.ts *)

Module Solana.
Import Js Num.

Definition LAMPORTS_PER_SOL : number := ofZ 1000000000.

Section Validation.

(** [new PublicKey(address)] of @solana/web3.js: [None] when the constructor
    returns, [Some err] when it throws [err]. *)
Variable PublicKey_throws : jsstring -> option value.

Definition isValidSolanaAddress (address : jsstring) : bool :=
  if negb (truthy address) then false
  else
    match PublicKey_throws address with
    | None => true
    | Some _ => false
    end.

End Validation.

End Solana.

(* ================================================================= *)
(** ** app/hooks/useTransfer.ts *)

Module Transfer.
Import Js Num Eff Solana.
Local Open Scope eff_scope.

Inductive TransactionStatus : Type := idle | pending | confirmed | failed.

Record TransferState : Type := {
  isSubmitting : bool;
  signature : option jsstring;
  error : option jsstring;
  status : TransactionStatus
}.

Definition initialState : TransferState :=
  {| isSubmitting := false; signature := None; error := None; status := idle |}.

(** The argument of [SystemProgram.transfer]. *)
Record TransferParams : Type := {
  fromPubkey : jsstring;
  toPubkey : jsstring;
  lamports : number
}.

(** What the collaborators of the hook do when called. *)
Record World : Type := {
  (** [new PublicKey(address)] throws, or not. *)
  PublicKey_throws : jsstring -> option value;
  (** [SystemProgram.transfer(params)] throws, or not. *)
  SystemProgram_transfer_throws : TransferParams -> option value;
  (** [import('@lazorkit/wallet')] followed by [getState()] fails, or not. *)
  import_wallet_rejects : option value;
  (** [store.signAndSendTransaction({instructions})] resolves with a
      signature or rejects. *)
  signAndSendTransaction : list TransferParams -> jsstring + value
}.

(** The effects of [transfer] and [reset] that can be seen from outside. *)
Inductive event : Type :=
| SetState (s : TransferState)
| AwaitImport
| AwaitSignAndSend (instructions : list TransferParams).

Definition setState (s : TransferState) : M event unit := emit (SetState s).

(** The amount in base units, as the [lamports] field is computed. *)
Definition toBaseUnits (amount : number) : number :=
  Math_floor (mul amount LAMPORTS_PER_SOL).

Definition transfer (w : World) (smartWalletPubkey : option jsstring)
    (recipient : jsstring) (amount : number) : M event jsstring :=
  match smartWalletPubkey with
  | None =>
      (* Validate wallet connection *)
      let error := lit "Wallet not connected" in
      setState {| isSubmitting := false; signature := None;
                  error := Some (Errors.transformError (VString error));
                  status := failed |} ;;
      throw (newError error)
  | Some smartWalletPubkey =>
      if negb (isValidSolanaAddress (PublicKey_throws w) recipient) then
        (* Validate recipient address *)
        let error := lit "Invalid recipient address" in
        setState {| isSubmitting := false; signature := None;
                    error := Some (Errors.transformError (VString error));
                    status := failed |} ;;
        throw (newError error)
      else if leb amount (S754_zero false) then
        (* Validate amount *)
        let error := lit "Amount must be greater than 0" in
        setState {| isSubmitting := false; signature := None;
                    error := Some error; status := failed |} ;;
        throw (newError error)
      else
        (* Set submitting state *)
        setState {| isSubmitting := true; signature := None;
                    error := None; status := pending |} ;;
        tryCatch
          ((* Build the transfer instruction *)
           orThrow (PublicKey_throws w recipient) ;;
           let instruction :=
             {| fromPubkey := smartWalletPubkey; toPubkey := recipient;
                lamports := toBaseUnits amount |} in
           orThrow (SystemProgram_transfer_throws w instruction) ;;
           (* Get the store and send transaction *)
           emit AwaitImport ;;
           orThrow (import_wallet_rejects w) ;;
           emit (AwaitSignAndSend [instruction]) ;;
           match signAndSendTransaction w [instruction] with
           | inr err => throw err
           | inl signature =>
               (* Update state with success *)
               setState {| isSubmitting := false; signature := Some signature;
                           error := None; status := confirmed |} ;;
               ret signature
           end)
          (fun err =>
             (* Transform and set error *)
             let errorMessage := Errors.transformError err in
             setState {| isSubmitting := false; signature := None;
                         error := Some errorMessage; status := failed |} ;;
             throw err)
  end.

Definition reset : M event unit := setState initialState.

(** The hook's state after an effect: [setState] replaces it whole. *)
Definition apply (st : TransferState) (ev : event) : TransferState :=
  match ev with
  | SetState s => s
  | _ => st
  end.

Definition applyAll (st : TransferState) (t : list event) : TransferState :=
  fold_left apply t st.

(** An effect that leaves the hook for a collaborator. *)
Definition isExternal (ev : event) : bool :=
  match ev with
  | SetState _ => false
  | AwaitImport | AwaitSignAndSend _ => true
  end.

(** The states the hook goes through: the initial one, and from a state
    every state that a call of [transfer] or [reset] has produced at some
    point of its run, whatever the collaborators do. *)
Inductive reachable : TransferState -> Prop :=
| reach_initial : reachable initialState
| reach_transfer st w pk recipient amount n :
    reachable st ->
    reachable (applyAll st (firstn n (trace (transfer w pk recipient amount))))
| reach_reset st n :
    reachable st ->
    reachable (applyAll st (firstn n (trace reset))).

(** The first check that a call fails, if any. *)
Inductive check : Type := notConnected | invalidRecipient | invalidAmount.

Definition failedCheck (w : World) (smartWalletPubkey : option jsstring)
    (recipient : jsstring) (amount : number) : option check :=
  match smartWalletPubkey with
  | None => Some notConnected
  | Some _ =>
      if negb (isValidSolanaAddress (PublicKey_throws w) recipient)
      then Some invalidRecipient
      else if leb amount (S754_zero false) then Some invalidAmount
      else None
  end.

End Transfer.

(* ================================================================= *)
(** ** app/hooks/useBalance.ts and formatBalance of WalletBalance.tsx *)

Module Balance.
Import Js Num Solana.

(** The four [useState] cells of the hook. *)
Record BalanceState : Type := {
  balance : option number;
  balanceLamports : option number;
  isLoading : bool;
  error : option jsstring
}.

(** The hook instance: its state cells, the [walletAddress] of the latest
    render, [connectionRef.current] (set or null), the interval timer with
    the address its [fetchBalance] closure captured, and the [getBalance]
    reads awaiting completion, each with the address it was dispatched
    for. *)
Record Hook : Type := {
  state : BalanceState;
  walletAddress : option jsstring;
  connection : bool;
  interval : option jsstring;
  inflight : list jsstring
}.

Definition initial : Hook :=
  {| state := {| balance := None; balanceLamports := None;
                 isLoading := false; error := None |};
     walletAddress := None; connection := false;
     interval := None; inflight := [] |}.

Definition withState (h : Hook) (s : BalanceState) : Hook :=
  {| state := s; walletAddress := walletAddress h; connection := connection h;
     interval := interval h; inflight := inflight h |}.

Definition setBalance (v : option number) (s : BalanceState) : BalanceState :=
  {| balance := v; balanceLamports := balanceLamports s;
     isLoading := isLoading s; error := error s |}.
Definition setBalanceLamports (v : option number) (s : BalanceState) : BalanceState :=
  {| balance := balance s; balanceLamports := v;
     isLoading := isLoading s; error := error s |}.
Definition setIsLoading (v : bool) (s : BalanceState) : BalanceState :=
  {| balance := balance s; balanceLamports := balanceLamports s;
     isLoading := v; error := error s |}.
Definition setError (v : option jsstring) (s : BalanceState) : BalanceState :=
  {| balance := balance s; balanceLamports := balanceLamports s;
     isLoading := isLoading s; error := v |}.

(** The [try] block after [getBalance] has resolved with [lamports],
    followed by [finally]. *)
Definition onResolved (lamports : number) (s : BalanceState) : BalanceState :=
  setIsLoading false
    (setBalance (Some (div lamports LAMPORTS_PER_SOL))
       (setBalanceLamports (Some lamports) s)).

(** The [catch] block, followed by [finally]. *)
Definition onRejected (s : BalanceState) : BalanceState :=
  setIsLoading false
    (setBalanceLamports None
       (setBalance None
          (setError (Some (lit "Failed to fetch balance")) s))).

Section Hook.

Variable PublicKey_throws : jsstring -> option value.

(** [fetchBalance] as closed over [address], up to its [await]. *)
Definition fetchBalance (address : option jsstring) (h : Hook) : Hook :=
  match address with
  | Some a =>
      if truthy a && connection h then
        let s := setError None (setIsLoading true (state h)) in
        match PublicKey_throws a with
        | Some _ => withState h (onRejected s)
        | None =>
            {| state := s; walletAddress := walletAddress h;
               connection := connection h; interval := interval h;
               inflight := inflight h ++ [a] |}
        end
      else withState h (setBalanceLamports None (setBalance None (state h)))
  | None => withState h (setBalanceLamports None (setBalance None (state h)))
  end.

Definition clearInterval (h : Hook) : Hook :=
  {| state := state h; walletAddress := walletAddress h;
     connection := connection h; interval := None; inflight := inflight h |}.

(** The body of the second effect for a render with [address]. *)
Definition effect (address : option jsstring) (h : Hook) : Hook :=
  let h := fetchBalance address h in
  match address with
  | Some a =>
      if truthy a then
        {| state := state h; walletAddress := walletAddress h;
           connection := connection h; interval := Some a;
           inflight := inflight h |}
      else h
  | None => h
  end.

Fixpoint removeNth {A} (i : nat) (l : list A) : list A :=
  match l, i with
  | [], _ => []
  | _ :: l', O => l'
  | x :: l', S i' => x :: removeNth i' l'
  end.

Definition sameAddress (a b : option jsstring) : bool :=
  match a, b with
  | None, None => true
  | Some x, Some y => Js.eqb x y
  | _, _ => false
  end.

(** What happens to the hook. *)
Inductive action : Type :=
| Mount (address : option jsstring)
| Render (address : option jsstring)
| Tick
| Refresh
| Resolve (i : nat) (lamports : number)
| Reject (i : nat) (err : value)
| Unmount.

Definition step (h : Hook) (a : action) : Hook :=
  match a with
  | Mount address =>
      (* first effect, then second effect *)
      effect address
        {| state := state h; walletAddress := address; connection := true;
           interval := interval h; inflight := inflight h |}
  | Render address =>
      if sameAddress address (walletAddress h) then h
      else
        (* cleanup of the previous effect, then the effect again *)
        effect address
          {| state := state h; walletAddress := address;
             connection := connection h; interval := None;
             inflight := inflight h |}
  | Tick =>
      match interval h with
      | Some a => fetchBalance (Some a) h
      | None => h
      end
  | Refresh => fetchBalance (walletAddress h) h
  | Resolve i lamports =>
      match nth_error (inflight h) i with
      | Some _ =>
          {| state := onResolved lamports (state h);
             walletAddress := walletAddress h; connection := connection h;
             interval := interval h; inflight := removeNth i (inflight h) |}
      | None => h
      end
  | Reject i _ =>
      match nth_error (inflight h) i with
      | Some _ =>
          {| state := onRejected (state h);
             walletAddress := walletAddress h; connection := connection h;
             interval := interval h; inflight := removeNth i (inflight h) |}
      | None => h
      end
  | Unmount =>
      {| state := state h; walletAddress := walletAddress h;
         connection := false; interval := None; inflight := inflight h |}
  end.

Definition run (h : Hook) (l : list action) : Hook := fold_left step l h.

End Hook.

(** [s.replace(/\.?0+$/, '')]: the match starts at the leftmost position
    from which an optional point and then one or more zeros reach the end
    of [s], and is removed. *)
Definition zeros (s : jsstring) : bool :=
  match s with
  | [] => false
  | _ => forallb (N.eqb 48) s
  end.

Definition matchesHere (s : jsstring) : bool :=
  match s with
  | [] => false
  | c :: r => if N.eqb c 46 then zeros r else zeros s
  end.

Fixpoint stripZeros (s : jsstring) : jsstring :=
  if matchesHere s then []
  else
    match s with
    | [] => []
    | c :: r => c :: stripZeros r
    end.

Section Format.

Variable Number_toString : number -> jsstring.

Definition formatBalance (balance : number) : jsstring :=
  if strictEq balance (ofZ 0) then lit "0"
  else if ltb balance (literal 1 10000) then lit "< 0.0001"
  else stripZeros (toFixed Number_toString balance 4).

End Format.

End Balance.

(* ================================================================= *)
(** ** app/lib/lazorkit/provider.tsx and app/hooks/useLazorkit.ts *)

Module Lazorkit.
Import Js Eff.
Local Open Scope eff_scope.

(** The part of the SDK store's state the hook reads: [wallet] (absent, or
    present with its [smartWallet] field, itself possibly absent),
    [isLoading], [isConnecting], and [error] when it is truthy. *)
Record StoreState : Type := {
  wallet : option (option jsstring);
  store_isLoading : bool;
  isConnecting : bool;
  store_error : option value
}.

(** The seven [useState] cells of [useLazorkit]. *)
Record LocalState : Type := {
  localError : option jsstring;
  isOperating : bool;
  isRestoring : bool;
  hasAttemptedRestore : bool;
  walletAddress : option jsstring;
  isConnected : bool;
  sdkIsLoading : bool
}.

Definition initialState : LocalState :=
  {| localError := None; isOperating := false; isRestoring := false;
     hasAttemptedRestore := true; walletAddress := None;
     isConnected := false; sdkIsLoading := false |}.

(** [const isLoading = sdkIsLoading || isOperating || isRestoring]. *)
Definition isLoading (st : LocalState) : bool :=
  sdkIsLoading st || isOperating st || isRestoring st.

(** The argument of [store.setConfig]. *)
Record Config : Type := {
  rpcUrl : jsstring;
  portalUrl : jsstring;
  paymasterUrl : jsstring
}.

(** [process.env.NEXT_PUBLIC_SOLANA_RPC_URL || 'https://api.devnet.solana.com']. *)
Definition RPC_URL (env : option jsstring) : jsstring :=
  match env with
  | Some url => if truthy url then url else lit "https://api.devnet.solana.com"
  | None => lit "https://api.devnet.solana.com"
  end.
Definition PORTAL_URL : jsstring := lit "https://portal.lazor.sh".
Definition PAYMASTER_URL : jsstring := lit "https://lazorkit-paymaster.onrender.com".

(** The functions of this code that contain an [await]. *)
Inductive fn : Type :=
| FInitializeLazorkitStore | FInit | FInitStore | FCreateWallet | FLogin | FLogout.

(** The promises awaited: the dynamic imports (each followed by
    [useWalletStore.getState()] where the code has it), named by the
    function they stand in, the call of [initializeLazorkitStore], and the
    store's [connect] and [disconnect]. *)
Inductive awaited : Type :=
| ImportProvider (f : fn)
| ImportWallet (f : fn)
| InitializeLazorkitStore (f : fn)
| Connect (f : fn)
| Disconnect.

(** How an external call ends: it returns a promise that resolves or
    rejects, or it throws before returning one. *)
Inductive settle : Type :=
| Resolves
| Rejects (err : value)
| Throws (err : value).

(** What surrounds the hook. *)
Record Env : Type := {
  (** [process.env.NEXT_PUBLIC_SOLANA_RPC_URL]. *)
  NEXT_PUBLIC_SOLANA_RPC_URL : option jsstring;
  (** [typeof window !== 'undefined']. *)
  windowDefined : bool;
  (** [localStorage.removeItem(key)] throws, or not. *)
  removeItem_throws : jsstring -> option value;
  (** [store.setConfig] is truthy, and what calling it does. *)
  hasSetConfig : bool;
  setConfig_throws : Config -> option value;
  settles : awaited -> settle;
  (** The store states the subscription callback is called with while the
      promise is awaited. *)
  notified : awaited -> list StoreState
}.

Inductive event : Type :=
| SetLocalError (e : option jsstring)
| SetIsOperating (b : bool)
| SetIsReady (b : bool)
| ReadStore (s : StoreState)
| Subscribe
| Notify (s : StoreState)
| RemoveItem (key : jsstring)
| SetConfig (c : Config)
| ConsoleError (label : jsstring) (err : value)
| Await (p : awaited).

Definition emitAll (l : list event) : M event unit := (l, inl tt).

(** [await] of an external call. *)
Definition call (w : Env) (p : awaited) : M event unit :=
  match settles w p with
  | Throws err => throw err
  | Resolves => emit (Await p) ;; emitAll (map Notify (notified w p))
  | Rejects err =>
      emit (Await p) ;; emitAll (map Notify (notified w p)) ;; throw err
  end.

(** [await m] for an [async] function [m] of this code: its effects, then
    the wait for its promise, then its outcome. *)
Definition awaitAsync (w : Env) (p : awaited) (m : M event unit) : M event unit :=
  let (t, r) := m in (t ++ Await p :: map Notify (notified w p), r).

Definition removeItem (w : Env) (key : jsstring) : M event unit :=
  emit (RemoveItem key) ;; orThrow (removeItem_throws w key).

(** provider.tsx, [initializeLazorkitStore]. *)
Definition config (w : Env) : Config :=
  {| rpcUrl := RPC_URL (NEXT_PUBLIC_SOLANA_RPC_URL w);
     portalUrl := PORTAL_URL; paymasterUrl := PAYMASTER_URL |}.

Definition initializeLazorkitStore (w : Env) : M event unit :=
  call w (ImportWallet FInitializeLazorkitStore) ;;
  (* Set the full config required by the SDK *)
  if hasSetConfig w then
    emit (SetConfig (config w)) ;; orThrow (setConfig_throws w (config w))
  else ret tt.

(** provider.tsx, [init] of [LazorkitProvider], and the effect that runs it
    unless [initializedRef.current] is set. *)
Definition init (w : Env) : M event unit :=
  tryCatch
    (awaitAsync w (InitializeLazorkitStore FInit) (initializeLazorkitStore w) ;;
     emit (SetIsReady true))
    (fun error =>
       emit (ConsoleError (lit "Failed to initialize Lazorkit SDK:") error) ;;
       emit (SetIsReady true)).

Definition providerEffect (w : Env) (initializedRef : bool) : M event unit :=
  if initializedRef then ret tt else init w.

(** useLazorkit.ts, [initStore], with the store state [getState()] yields. *)
Definition initStore (w : Env) (state : StoreState) : M event unit :=
  tryCatch
    (call w (ImportWallet FInitStore) ;;
     (* Update local state from store *)
     emit (ReadStore state) ;;
     (* Subscribe to store changes *)
     emit Subscribe)
    (fun error =>
       emit (ConsoleError (lit "Failed to initialize wallet store:") error)).

(** The [try] blocks of the three actions. *)
Definition createWalletTry (w : Env) : M event unit :=
  (* Clear any stale wallet data before creating new wallet *)
  (if windowDefined w then
     removeItem w (lit "lazorkit-wallet") ;;
     removeItem w (lit "CREDENTIAL_ID") ;;
     removeItem w (lit "PUBLIC_KEY") ;;
     removeItem w (lit "SMART_WALLET_ADDRESS")
   else ret tt) ;;
  (* Ensure SDK is initialized with config *)
  call w (ImportProvider FCreateWallet) ;;
  awaitAsync w (InitializeLazorkitStore FCreateWallet) (initializeLazorkitStore w) ;;
  call w (ImportWallet FCreateWallet) ;;
  call w (Connect FCreateWallet).

Definition loginTry (w : Env) : M event unit :=
  (* Ensure SDK is initialized with config *)
  call w (ImportProvider FLogin) ;;
  awaitAsync w (InitializeLazorkitStore FLogin) (initializeLazorkitStore w) ;;
  call w (ImportWallet FLogin) ;;
  call w (Connect FLogin).

Definition logoutTry (w : Env) : M event unit :=
  call w (ImportWallet FLogout) ;;
  call w Disconnect.

Definition createWallet (w : Env) : M event unit :=
  emit (SetLocalError None) ;;
  emit (SetIsOperating true) ;;
  tryFinally
    (tryCatch (createWalletTry w)
       (fun err =>
          emit (ConsoleError (lit "Create wallet error:") err) ;;
          emit (SetLocalError (Some (Errors.transformError err)))))
    (emit (SetIsOperating false)).

Definition login (w : Env) : M event unit :=
  emit (SetLocalError None) ;;
  emit (SetIsOperating true) ;;
  tryFinally
    (tryCatch (loginTry w)
       (fun err =>
          emit (ConsoleError (lit "Login error:") err) ;;
          emit (SetLocalError (Some (Errors.transformError err)))))
    (emit (SetIsOperating false)).

Definition logout (w : Env) : M event unit :=
  emit (SetLocalError None) ;;
  emit (SetIsOperating true) ;;
  tryFinally
    (tryCatch (logoutTry w)
       (fun err => emit (SetLocalError (Some (Errors.transformError err)))))
    (emit (SetIsOperating false)).

Definition clearError : M event unit := emit (SetLocalError None).

(** The three actions by name. *)
Inductive action : Type := CreateWallet | Login | Logout.

Definition tryBlock (a : action) (w : Env) : M event unit :=
  match a with
  | CreateWallet => createWalletTry w
  | Login => loginTry w
  | Logout => logoutTry w
  end.

Definition perform (a : action) (w : Env) : M event unit :=
  match a with
  | CreateWallet => createWallet w
  | Login => login w
  | Logout => logout w
  end.

(** The three setters fed from a store state, in [initStore] and in the
    subscription callback. *)
Definition fromStore (s : StoreState) (st : LocalState) : LocalState :=
  {| localError := localError st; isOperating := isOperating st;
     isRestoring := isRestoring st;
     hasAttemptedRestore := hasAttemptedRestore st;
     walletAddress :=
       match wallet s with
       | Some (Some smartWallet) => Some smartWallet
       | _ => None
       end;
     isConnected := match wallet s with Some _ => true | None => false end;
     sdkIsLoading := store_isLoading s || isConnecting s |}.

Definition withLocalError (e : option jsstring) (st : LocalState) : LocalState :=
  {| localError := e; isOperating := isOperating st;
     isRestoring := isRestoring st;
     hasAttemptedRestore := hasAttemptedRestore st;
     walletAddress := walletAddress st; isConnected := isConnected st;
     sdkIsLoading := sdkIsLoading st |}.

Definition withIsOperating (b : bool) (st : LocalState) : LocalState :=
  {| localError := localError st; isOperating := b;
     isRestoring := isRestoring st;
     hasAttemptedRestore := hasAttemptedRestore st;
     walletAddress := walletAddress st; isConnected := isConnected st;
     sdkIsLoading := sdkIsLoading st |}.

(** The hook's state after an effect. *)
Definition apply (st : LocalState) (ev : event) : LocalState :=
  match ev with
  | SetLocalError e => withLocalError e st
  | SetIsOperating b => withIsOperating b st
  | ReadStore s => fromStore s st
  | Notify s =>
      let st := fromStore s st in
      match store_error s with
      | Some error => withLocalError (Some (Errors.transformError error)) st
      | None => st
      end
  | _ => st
  end.

Definition applyAll (st : LocalState) (t : list event) : LocalState :=
  fold_left apply t st.

(** [isReady] of [LazorkitProvider] after an effect. *)
Definition applyReady (isReady : bool) (ev : event) : bool :=
  match ev with
  | SetIsReady b => b
  | _ => isReady
  end.

(** The states the hook goes through: what the mount effect, the three
    actions and [clearError] have done at some point of their runs. *)
Inductive reachable : LocalState -> Prop :=
| reach_initial : reachable initialState
| reach_initStore st w s n :
    reachable st ->
    reachable (applyAll st (firstn n (trace (initStore w s))))
| reach_perform st a w n :
    reachable st ->
    reachable (applyAll st (firstn n (trace (perform a w))))
| reach_clearError st :
    reachable st -> reachable (applyAll st (trace clearError))
| reach_notify st s :
    reachable st -> reachable (apply st (Notify s)).

End Lazorkit.

(* ================================================================= *)
(** ** Display helpers: app/lib/validation.ts, app/lib/solana/constants.ts,
       components/TransactionStatus.tsx, components/WalletBalance.tsx,
       components/TransferForm.tsx *)

Module Display.
Import Js Num Eff.
Local Open Scope eff_scope.

(** [s.slice(start, end)] for integral arguments; [None] is an omitted
    [end]. *)
Definition slice (s : jsstring) (start : Z) (end_ : option Z) : jsstring :=
  let len := Z.of_nat (List.length s) in
  let clamp (i : Z) := if (i <? 0)%Z then Z.max (len + i) 0 else Z.min i len in
  let from := clamp start in
  let to := match end_ with None => len | Some e => clamp e end in
  firstn (Z.to_nat (Z.max (to - from) 0)) (skipn (Z.to_nat from) s).

(** validation.ts, [formatAddress], for an integral [chars]. *)
Definition formatAddress (address : jsstring) (chars : Z) : jsstring :=
  if negb (truthy address) then []
  else if (Z.of_nat (List.length address) <=? chars * 2)%Z then address
  else slice address 0 (Some chars) ++ lit "..." ++ slice address (- chars) None.

(** constants.ts. *)
Definition SOLANA_EXPLORER_URL : jsstring := lit "https://explorer.solana.com".

Definition getExplorerUrl (signature : jsstring) : jsstring :=
  SOLANA_EXPLORER_URL ++ lit "/tx/" ++ signature ++ lit "?cluster=devnet".

Definition getAccountExplorerUrl (address : jsstring) : jsstring :=
  SOLANA_EXPLORER_URL ++ lit "/address/" ++ address ++ lit "?cluster=devnet".

(** TransactionStatus.tsx: its own [getExplorerUrl], [truncateSignature]
    and the branch the component renders. *)
Module TransactionStatus.

Definition getExplorerUrl (signature : jsstring) : jsstring :=
  lit "https://explorer.solana.com/tx/" ++ signature ++ lit "?cluster=devnet".

Definition truncateSignature (signature : jsstring) : jsstring :=
  if (List.length signature <=? 16)%nat then signature
  else slice signature 0 (Some 8%Z) ++ lit "..." ++ slice signature (-8) None.

Inductive view : Type :=
| Pending
| Confirmed (href label : jsstring)
| Failed (error : jsstring)
| Nothing.

Definition render (signature error : option jsstring)
    (status : Transfer.TransactionStatus) : view :=
  match status, signature, error with
  | Transfer.pending, _, _ => Pending
  | Transfer.confirmed, Some sig, _ =>
      if truthy sig then Confirmed (getExplorerUrl sig) (truncateSignature sig)
      else Nothing
  | Transfer.failed, _, Some e => if truthy e then Failed e else Nothing
  | _, _, _ => Nothing
  end.

End TransactionStatus.

(** WalletBalance.tsx: what the balance line shows. *)
Module WalletBalance.

Inductive line : Type :=
| Loading
| ErrorText (error : jsstring)
| Amount (text : jsstring)
| Dashes.

Section Render.

Variable Number_toString : number -> jsstring.

(** [None] is the component returning [null]; otherwise the balance line
    and the explorer link. *)
Definition render (walletAddress : option jsstring) (s : Balance.BalanceState)
    : option (line * jsstring) :=
  match walletAddress with
  | None => None
  | Some a =>
      if negb (truthy a) then None
      else
        Some
          (if Balance.isLoading s then Loading
           else
             match Balance.error s with
             | Some e =>
                 if truthy e then ErrorText e
                 else
                   match Balance.balance s with
                   | Some b =>
                       Amount (Balance.formatBalance Number_toString b ++ lit " SOL")
                   | None => Dashes
                   end
             | None =>
                 match Balance.balance s with
                 | Some b =>
                     Amount (Balance.formatBalance Number_toString b ++ lit " SOL")
                 | None => Dashes
                 end
             end,
           getAccountExplorerUrl a)
  end.

End Render.

End WalletBalance.

(** TransferForm.tsx: [handleSubmit] and [handleReset]. *)
Module TransferForm.

Inductive event : Type :=
| PreventDefault
| Hook (ev : Transfer.event)
| SetRecipient (s : jsstring)
| SetAmount (s : jsstring).

(** A call into the hook, seen from the form. *)
Definition hook {A} (m : M Transfer.event A) : M event A :=
  (map Hook (trace m), outcome m).

Definition isNaN (x : number) : bool :=
  match x with
  | S754_nan => true
  | _ => false
  end.

Section Form.

Variable parseFloat : jsstring -> number.

Definition handleSubmit (w : Transfer.World) (smartWalletPubkey : option jsstring)
    (recipient amount : jsstring) : M event unit :=
  emit PreventDefault ;;
  let amountNum := parseFloat amount in
  if isNaN amountNum then ret tt
  else
    tryCatch
      (hook (Transfer.transfer w smartWalletPubkey recipient amountNum) ;;
       (* Clear form on success *)
       emit (SetRecipient []) ;;
       emit (SetAmount []))
      (fun _ => ret tt).

End Form.

Definition handleReset : M event unit :=
  hook Transfer.reset ;;
  emit (SetRecipient []) ;;
  emit (SetAmount []).

End TransferForm.

End Display.

(* ================================================================= *)
(** ** Reference definitions the properties are stated against *)

Module Reference.
Import Js Num.

(** The four decimals of [r], for [0 <= r < 10000]. *)
Definition fractionDigits (r : Z) : jsstring :=
  [digit (r / 1000); digit (r / 100 mod 10); digit (r / 10 mod 10);
   digit (r mod 10)]%Z.

Fixpoint dropTrailingZeros (l : jsstring) : jsstring :=
  match l with
  | [] => []
  | c :: r =>
      match dropTrailingZeros r with
      | [] => if N.eqb c 48 then [] else [c]
      | r' => c :: r'
      end
  end.

(** The decimal numeral of [n / 10^4] for a natural [n]: the integer part,
    then, unless the fraction is zero, a point and the fraction without
    trailing zeros. *)
Definition fixed4 (n : Z) : jsstring :=
  digits (n / 10000)%Z ++
  match dropTrailingZeros (fractionDigits (n mod 10000)%Z) with
  | [] => []
  | f => lit "." ++ f
  end.

(** A positive rational in ten-thousandths: cut off after the fourth
    decimal, and rounded to the nearest one, upwards from the middle. *)
Definition truncated (x : Q) : Z := Qfloor (x * inject_Z 10000).
Definition rounded (x : Q) : Z := Qfloor (x * inject_Z 10000 + (1 # 2)).

(** Formatting by truncation. *)
Definition formatBalanceTruncating (balance : number) : jsstring :=
  match balance with
  | S754_zero _ => lit "0"
  | S754_finite s m e =>
      if ltb balance (literal 1 10000) then lit "< 0.0001"
      else fixed4 (truncated (valueQ s m e))
  | _ => []
  end.

Section Stale.

Variable PublicKey_throws : jsstring -> option value.

(** Results of reads dispatched for an address that is no longer the
    current one are discarded: completing such a read leaves the balance
    as it was. *)
Definition StaleResultDiscarded : Prop :=
  forall (l : list Balance.action) (i : nat) (a : jsstring) (lamports : number),
    let h := Balance.run PublicKey_throws Balance.initial l in
    nth_error (Balance.inflight h) i = Some a ->
    Balance.walletAddress h <> Some a ->
    let h' := Balance.step PublicKey_throws h (Balance.Resolve i lamports) in
    Balance.balanceLamports (Balance.state h') =
      Balance.balanceLamports (Balance.state h) /\
    Balance.balance (Balance.state h') = Balance.balance (Balance.state h).

End Stale.

(** The floor of the exact product of a finite amount and [10^9], the
    conversion law read over the reals. *)
Definition exactBaseUnits (amount : Num.number) : option Z :=
  match amount with
  | S754_zero _ => Some 0%Z
  | S754_finite s m e =>
      Some (Qfloor (Num.valueQ s m e * inject_Z 1000000000))
  | _ => None
  end.

(** The fields of a [TransferState] agree with its status. *)
Definition agrees (s : Transfer.TransferState) : Prop :=
  match Transfer.status s with
  | Transfer.confirmed =>
      Transfer.signature s <> None /\ Transfer.error s = None
  | Transfer.failed =>
      Transfer.error s <> None /\ Transfer.signature s = None
  | Transfer.idle | Transfer.pending =>
      Transfer.signature s = None /\ Transfer.error s = None
  end.

(** A world in which every collaborator of [transfer] succeeds, except that
    sending is rejected with [err]. *)
Definition rejecting (err : Js.value) : Transfer.World :=
  {| Transfer.PublicKey_throws := fun _ => None;
     Transfer.SystemProgram_transfer_throws := fun _ => None;
     Transfer.import_wallet_rejects := None;
     Transfer.signAndSendTransaction := fun _ => inr err |}.

(** A world in which sending resolves with [signature]. *)
Definition accepting (signature : Js.jsstring) : Transfer.World :=
  {| Transfer.PublicKey_throws := fun _ => None;
     Transfer.SystemProgram_transfer_throws := fun _ => None;
     Transfer.import_wallet_rejects := None;
     Transfer.signAndSendTransaction := fun _ => inl signature |}.

(** An environment of [useLazorkit] with a browser window, a working
    [localStorage] and [setConfig], and no store notification, in which the
    awaited promises settle as [settles] says. *)
Definition quiet (settles : Lazorkit.awaited -> Lazorkit.settle) : Lazorkit.Env :=
  {| Lazorkit.NEXT_PUBLIC_SOLANA_RPC_URL := None;
     Lazorkit.windowDefined := true;
     Lazorkit.removeItem_throws := fun _ => None;
     Lazorkit.hasSetConfig := true;
     Lazorkit.setConfig_throws := fun _ => None;
     Lazorkit.settles := settles;
     Lazorkit.notified := fun _ => [] |}.

(** Effects other than [setIsOperating], and other than
    [localStorage.removeItem]. *)
Definition keepsOperating (ev : Lazorkit.event) : bool :=
  match ev with
  | Lazorkit.SetIsOperating _ => false
  | _ => true
  end.

Definition keepsStorage (ev : Lazorkit.event) : bool :=
  match ev with
  | Lazorkit.RemoveItem _ => false
  | _ => true
  end.

(** What a [catch] block of the wallet actions does. *)
Definition reports (ev : Lazorkit.event) : bool :=
  match ev with
  | Lazorkit.ConsoleError _ _ | Lazorkit.SetLocalError _ => true
  | _ => false
  end.

(** Invariants of the balance hook: the two balance fields hold the same
    amount; loading means a read is in flight; the timer polls the current
    address. *)
Definition fieldsAgree (h : Balance.Hook) : Prop :=
  Balance.balance (Balance.state h) =
  option_map (fun l => Num.div l Solana.LAMPORTS_PER_SOL)
    (Balance.balanceLamports (Balance.state h)).

Definition loadingInflight (h : Balance.Hook) : Prop :=
  Balance.isLoading (Balance.state h) = true -> Balance.inflight h <> [].

Definition timerCurrent (h : Balance.Hook) : Prop :=
  forall a, Balance.interval h = Some a ->
            Balance.walletAddress h = Some a /\ Js.truthy a = true.

(** The code units of the decimal digits. *)
Definition isDigit (c : Js.codeunit) : Prop := (48 <= c <= 57)%N.

(** No [Mount] among the actions: the hook instance is mounted once. *)
Definition noMount (l : list Balance.action) : bool :=
  forallb (fun a => match a with Balance.Mount _ => false | _ => true end) l.

End Reference.

(** The tests [transformError] and [isError] make on a value. *)
Module Tests.
Import Js.

Inductive type : Type :=
| TUndefined | TObject | TBoolean | TNumber | TBigInt | TSymbol | TString
| TFunction.

Definition typeof (v : value) : type :=
  match v with
  | VUndefined => TUndefined
  | VNull => TObject
  | VBoolean _ => TBoolean
  | VNumber _ => TNumber
  | VBigInt _ => TBigInt
  | VSymbol _ => TSymbol
  | VString _ => TString
  | VFunction _ _ => TFunction
  | VError _ _ | VObject _ _ => TObject
  end.

(** [v instanceof Error]. *)
Definition instanceofError (v : value) : bool :=
  match v with
  | VError _ _ => true
  | _ => false
  end.

(** errors.ts, [isError]. *)
Definition isError (v : value) : bool := instanceofError v.

(** ['message' in v], for an object or a function. *)
Definition hasMessage (v : value) : bool :=
  match v with
  | VError _ _ => true
  | VObject _ props | VFunction _ props => has props (lit "message")
  | _ => false
  end.

End Tests.

Arguments Errors.transformError : simpl never.
Arguments Js.isWhiteSpace : simpl never.
Arguments Transfer.toBaseUnits : simpl never.

(* ================================================================= *)
(** * Properties *)

(** ** Traces *)

Module EffTheory.
Import Js Eff.

Lemma trace_bind {E A B} (m : M E A) (k : A -> M E B) :
  trace (bind m k) =
  trace m ++ match outcome m with
             | inl a => trace (k a)
             | inr _ => []
             end.
Proof.
  destruct m as [t [a|err]]; cbn.
  - destruct (k a); reflexivity.
  - now rewrite app_nil_r.
Qed.

Lemma outcome_bind {E A B} (m : M E A) (k : A -> M E B) :
  outcome (bind m k) =
  match outcome m with
  | inl a => outcome (k a)
  | inr err => inr err
  end.
Proof.
  destruct m as [t [a|err]]; cbn; [|reflexivity].
  destruct (k a); reflexivity.
Qed.

End EffTheory.

(** ** The error normaliser *)

Module ErrorsTheory.
Import Js Errors Tests.

Lemma scan_first (pre post : list mapping) (r : mapping) (msg : jsstring) :
  forallb (fun m => negb (applies m msg)) pre = true ->
  applies r msg = true ->
  scan (pre ++ r :: post) msg = Some (message r).
Proof.
  induction pre as [|m pre IH]; simpl; intros Hpre Hr.
  - now rewrite Hr.
  - apply andb_true_iff in Hpre. destruct Hpre as [Hm Hpre].
    apply negb_true_iff in Hm. rewrite Hm. now apply IH.
Qed.

Lemma scan_none (table : list mapping) (msg : jsstring) :
  existsb (fun m => applies m msg) table = false ->
  scan table msg = None.
Proof.
  induction table as [|m table IH]; simpl; intros H; [reflexivity|].
  apply orb_false_iff in H. destruct H as [Hm H].
  rewrite Hm. now apply IH.
Qed.

Lemma scan_some (table : list mapping) (msg out : jsstring) :
  scan table msg = Some out ->
  exists r, In r table /\ applies r msg = true /\ message r = out.
Proof.
  induction table as [|m table IH]; simpl; intros H; [discriminate|].
  destruct (applies m msg) eqn:Hm.
  - inversion H; subst. exists m. auto.
  - destruct (IH H) as (r & Hin & Hr & Hout). exists r. auto.
Qed.

Lemma transformError_message (error : value) (msg : jsstring) :
  errorMessageOf error = Some msg ->
  transformError error =
    match scan ERROR_MAPPINGS msg with
    | Some message => message
    | None => if truthy (trim msg) then trim msg else FALLBACK
    end.
Proof.
  unfold transformError, transformErrorWith. intros H.
  destruct error; try (simpl in H; discriminate H); rewrite H; reflexivity.
Qed.

Lemma first_match_rule
    (pre post : list mapping) (r : mapping) (error : value) (msg : jsstring) :
  ERROR_MAPPINGS = pre ++ r :: post ->
  errorMessageOf error = Some msg ->
  forallb (fun m => negb (applies m msg)) pre = true ->
  applies r msg = true ->
  transformError error = message r.
Proof.
  intros Htable Hmsg Hpre Hr.
  rewrite (transformError_message _ Hmsg), Htable.
  now rewrite (scan_first pre post r msg Hpre Hr).
Qed.

(** C3: the rule list is scanned in order and the message of the first rule
    whose pattern matches the extracted message is returned: if the table
    splits into rules [pre] that do not match, a rule [r] that matches and
    any rest (in which further rules may match), the result is the message
    of [r]. *)
Theorem transformError_first_match
    (pre post : list mapping) (r : mapping) (error : value) (msg : jsstring) :
  ERROR_MAPPINGS = pre ++ r :: post ->
  errorMessageOf error = Some msg ->
  forallb (fun m => negb (applies m msg)) pre = true ->
  applies r msg = true ->
  transformError error = message r.
Proof.
  intros Htable Hmsg Hpre Hr.
  rewrite (transformError_message _ Hmsg), Htable.
  now rewrite (scan_first pre post r msg Hpre Hr).
Qed.

(** A message naming both [InvalidStateError] (rule 2) and [AbortError]
    (rule 5) gets the message of rule 2. *)
Lemma transformError_first_match_witness :
  transformError (newError (lit "InvalidStateError AbortError")) =
  lit "A passkey already exists for this device.".
Proof.
  apply (@transformError_first_match
           (firstn 1 ERROR_MAPPINGS) (skipn 2 ERROR_MAPPINGS)
           (str "InvalidStateError" "A passkey already exists for this device.")
           (newError (lit "InvalidStateError AbortError"))
           (lit "InvalidStateError AbortError")).
  - reflexivity.
  - reflexivity.
  - vm_compute. reflexivity.
  - vm_compute. reflexivity.
Defined.

(** C7: [null] and [undefined] give the fallback string; an input whose
    extracted message matches no rule gives the trimmed message, or the
    fallback when trimming leaves nothing. *)
Theorem transformError_nullish_and_unmatched :
  transformError VNull = lit "An unexpected error occurred." /\
  transformError VUndefined = lit "An unexpected error occurred." /\
  forall (error : value) (msg : jsstring),
    errorMessageOf error = Some msg ->
    existsb (fun m => applies m msg) ERROR_MAPPINGS = false ->
    transformError error =
      if truthy (trim msg) then trim msg else lit "An unexpected error occurred.".
Proof.
  split; [reflexivity|]. split; [reflexivity|].
  intros error msg Hmsg Hnone.
  rewrite (transformError_message _ Hmsg).
  now rewrite (scan_none _ _ Hnone).
Qed.

Lemma transformError_nullish_and_unmatched_witness :
  transformError (VString (lit "  disk is full  ")) = lit "disk is full" /\
  transformError (newError (lit "   ")) = lit "An unexpected error occurred.".
Proof.
  destruct transformError_nullish_and_unmatched as (_ & _ & H).
  split.
  - apply (H (VString (lit "  disk is full  ")) (lit "  disk is full  ")).
    + reflexivity.
    + vm_compute. reflexivity.
  - apply (H (newError (lit "   ")) (lit "   ")).
    + reflexivity.
    + vm_compute. reflexivity.
Defined.

(** C10: an input that is neither [null] nor [undefined], not an [Error]
    instance, not a string and not an object with a [message] property gives
    the fallback string. *)
Theorem transformError_other_values (error : value) :
  error <> VNull ->
  error <> VUndefined ->
  instanceofError error = false ->
  typeof error <> TString ->
  (typeof error = TObject -> hasMessage error = false) ->
  transformError error = lit "An unexpected error occurred.".
Proof.
  intros Hnull Hundef Herr Hstr Hobj.
  unfold transformError, transformErrorWith.
  destruct error; simpl in *; try reflexivity; try discriminate; try congruence.
  specialize (Hobj eq_refl). unfold has in Hobj.
  destruct (get props (lit "message")); [discriminate | reflexivity].
Qed.

Lemma transformError_other_values_witness :
  transformError (VNumber (lit "42")) = lit "An unexpected error occurred." /\
  transformError (VBoolean false) = lit "An unexpected error occurred." /\
  transformError (VObject (lit "[object Object]") [(lit "code", VNumber (lit "7"))])
    = lit "An unexpected error occurred.".
Proof.
  split; [|split].
  - apply (@transformError_other_values (VNumber (lit "42")));
      try discriminate; try reflexivity.
  - apply (@transformError_other_values (VBoolean false));
      try discriminate; try reflexivity.
  - apply (@transformError_other_values
             (VObject (lit "[object Object]") [(lit "code", VNumber (lit "7"))]));
      try discriminate; try reflexivity.
Defined.

Lemma eqb_eq (a b : jsstring) : Js.eqb a b = true -> a = b.
Proof.
  revert b; induction a as [|x a IH]; intros [|y b]; cbn; try discriminate;
    [reflexivity|].
  intros H. apply andb_true_iff in H. destruct H as [Hx H].
  apply N.eqb_eq in Hx. subst. f_equal. now apply IH.
Qed.

Lemma trimStart_app (a b : jsstring) :
  trimStart (a ++ b) =
  match trimStart a with
  | [] => trimStart b
  | a' => a' ++ b
  end.
Proof.
  induction a as [|c a IH]; [reflexivity|].
  cbn [app trimStart]. destruct (isWhiteSpace c); [exact IH | reflexivity].
Qed.

Lemma trimStart_suffix (s : jsstring) : exists a, s = a ++ trimStart s.
Proof.
  induction s as [|c s [a IH]]; [now exists []|].
  cbn [trimStart]. destruct (isWhiteSpace c).
  - exists (c :: a). cbn. now rewrite <- IH.
  - now exists [].
Qed.

Lemma trimEnd_prefix (s : jsstring) : exists b, s = trimEnd s ++ b.
Proof.
  unfold trimEnd. destruct (trimStart_suffix (rev s)) as [a H].
  exists (rev a). rewrite <- rev_app_distr, <- H. now rewrite rev_involutive.
Qed.

Lemma trimStart_idem (s : jsstring) : trimStart (trimStart s) = trimStart s.
Proof.
  induction s as [|c s IH]; [reflexivity|].
  cbn [trimStart]. destruct (isWhiteSpace c) eqn:E; [exact IH|].
  cbn [trimStart]. now rewrite E.
Qed.

Lemma trimEnd_idem (s : jsstring) : trimEnd (trimEnd s) = trimEnd s.
Proof. unfold trimEnd. now rewrite rev_involutive, trimStart_idem. Qed.

Lemma trimEnd_cons (c : codeunit) (l : jsstring) :
  trimEnd (c :: l) =
  match trimEnd l with
  | [] => if isWhiteSpace c then [] else [c]
  | l' => c :: l'
  end.
Proof.
  unfold trimEnd. cbn [rev]. rewrite trimStart_app.
  destruct (trimStart (rev l)) as [|x a] eqn:E.
  - cbn [trimStart rev app]. destruct (isWhiteSpace c); reflexivity.
  - rewrite rev_app_distr. cbn [rev app].
    destruct (rev a ++ [x]) eqn:R; [now destruct (rev a)|reflexivity].
Qed.

Lemma trimStart_trimEnd (s : jsstring) :
  trimStart (trimEnd (trimStart s)) = trimEnd (trimStart s).
Proof.
  destruct (trimStart s) as [|c l] eqn:E; [reflexivity|].
  assert (W : isWhiteSpace c = false).
  { revert E. induction s as [|x s IH]; cbn [trimStart]; [discriminate|].
    destruct (isWhiteSpace x) eqn:X; [exact IH|].
    intros H. inversion H; subst. exact X. }
  rewrite trimEnd_cons, W.
  destruct (trimEnd l); cbn [trimStart]; now rewrite W.
Qed.

Lemma trim_idem (s : jsstring) : trim (trim s) = trim s.
Proof. unfold trim. now rewrite trimStart_trimEnd, trimEnd_idem. Qed.

Lemma startsWith_app (p s b : jsstring) :
  startsWith p s = true -> startsWith p (s ++ b) = true.
Proof.
  revert s; induction p as [|x p IH]; intros [|c s]; cbn; try discriminate; auto.
  intros H. apply andb_true_iff in H. destruct H as [H1 H2].
  rewrite H1. now apply IH.
Qed.

Lemma includes_nil (p : jsstring) : includes [] p = true -> forall s, includes s p = true.
Proof.
  destruct p; [|discriminate]. intros _ s. destruct s; reflexivity.
Qed.

Lemma includes_app_r (s b p : jsstring) :
  includes s p = true -> includes (s ++ b) p = true.
Proof.
  induction s as [|c s IH]; intros H.
  - now apply includes_nil.
  - cbn [includes app] in *. apply orb_true_iff in H. apply orb_true_iff.
    destruct H as [H|H]; [left | right; now apply IH].
    now apply (startsWith_app p (c :: s) b).
Qed.

Lemma includes_app_l (a s p : jsstring) :
  includes s p = true -> includes (a ++ s) p = true.
Proof.
  induction a as [|c a IH]; intros H; [exact H|].
  cbn [app includes]. apply orb_true_iff. right. now apply IH.
Qed.

Lemma includes_trim (s p : jsstring) :
  includes (trim s) p = true -> includes s p = true.
Proof.
  intros H. unfold trim in H.
  destruct (trimStart_suffix s) as [a Ha].
  destruct (trimEnd_prefix (trimStart s)) as [b Hb].
  rewrite Ha, Hb. apply includes_app_l, includes_app_r, H.
Qed.

Lemma matchesHere_app (re : regexp) (s b : jsstring) :
  matchesHere re s = true -> matchesHere re (s ++ b) = true.
Proof.
  induction re as [w|x IHx y IHy]; cbn.
  - apply startsWith_app.
  - intros H. apply orb_true_iff in H. apply orb_true_iff. tauto.
Qed.

Lemma matchesHere_nonempty (re : regexp) (s : jsstring) :
  matchesHere re [] = true -> matchesHere re s = true.
Proof. intros H. apply (matchesHere_app re [] s H). Qed.

Lemma test_app_r (re : regexp) (s b : jsstring) :
  test re s = true -> test re (s ++ b) = true.
Proof.
  induction s as [|c s IH]; intros H.
  - cbn in H. rewrite orb_false_r in H.
    destruct b; cbn; rewrite (matchesHere_nonempty re _ H); reflexivity.
  - cbn [test app] in *. apply orb_true_iff in H. apply orb_true_iff.
    destruct H as [H|H]; [left | right; now apply IH].
    now apply (matchesHere_app re (c :: s) b).
Qed.

Lemma test_app_l (re : regexp) (a s : jsstring) :
  test re s = true -> test re (a ++ s) = true.
Proof.
  induction a as [|c a IH]; intros H; [exact H|].
  cbn [app test]. apply orb_true_iff. right. now apply IH.
Qed.

Lemma applies_trim (m : mapping) (s : jsstring) :
  applies m (trim s) = true -> applies m s = true.
Proof.
  unfold applies. destruct (pattern_of m); [apply includes_trim|].
  intros H. unfold trim in H.
  destruct (trimStart_suffix s) as [a Ha].
  destruct (trimEnd_prefix (trimStart s)) as [b Hb].
  rewrite Ha, Hb. apply test_app_l, test_app_r, H.
Qed.

Lemma scan_trim (table : list mapping) (s : jsstring) :
  scan table s = None -> scan table (trim s) = None.
Proof.
  induction table as [|m table IH]; cbn; [reflexivity|].
  destruct (applies m s) eqn:E; [discriminate|].
  destruct (applies m (trim s)) eqn:E'; [|exact IH].
  rewrite (applies_trim m s E') in E. discriminate.
Qed.

Lemma transformError_cases (error : value) :
  transformError error = FALLBACK \/
  (exists r, In r ERROR_MAPPINGS /\ transformError error = message r) \/
  (exists msg, scan ERROR_MAPPINGS msg = None /\ truthy (trim msg) = true /\
     transformError error = trim msg).
Proof.
  destruct (errorMessageOf error) as [msg|] eqn:E.
  - rewrite (transformError_message _ E).
    destruct (scan ERROR_MAPPINGS msg) as [out|] eqn:S.
    + right; left. destruct (scan_some _ _ S) as (r & Hin & _ & Hout).
      exists r. now rewrite Hout.
    + destruct (truthy (trim msg)) eqn:T; [|now left].
      right; right. exists msg. auto.
  - left. unfold transformError, transformErrorWith.
    destruct error; try reflexivity; rewrite E; reflexivity.
Qed.

(** The message returned is never the empty string: it is a rule's message,
    a trimmed message that is not empty, or the fallback. *)
Theorem transformError_nonempty (error : value) :
  truthy (transformError error) = true.
Proof.
  destruct (transformError_cases error) as [E|[(r & Hin & E)|(msg & _ & T & E)]];
    rewrite E.
  - reflexivity.
  - assert (A : forallb (fun m => truthy (message m)) ERROR_MAPPINGS = true)
      by (vm_compute; reflexivity).
    rewrite forallb_forall in A. now apply A.
  - exact T.
Qed.

(** Normalising a message that is already normalised changes nothing: the
    messages of the rules and the fallback are mapped to themselves, and a
    trimmed message that matched no rule still matches none. *)
Theorem transformError_idempotent (error : value) :
  transformError (VString (transformError error)) = transformError error.
Proof.
  destruct (transformError_cases error) as [E|[(r & Hin & E)|(msg & S & T & E)]];
    rewrite E.
  - vm_compute. reflexivity.
  - assert (A : forallb (fun m => Js.eqb (transformError (VString (message m)))
                                    (message m)) ERROR_MAPPINGS = true)
      by (vm_compute; reflexivity).
    rewrite forallb_forall in A. exact (eqb_eq _ _ (A r Hin)).
  - rewrite (@transformError_message (VString (trim msg)) (trim msg) eq_refl).
    rewrite (scan_trim _ _ S), trim_idem, T. reflexivity.
Qed.

End ErrorsTheory.

(** ** The transfer hook *)

Module TransferTheory.
Import Js Num Eff Solana Transfer Reference EffTheory.

(** Case analysis on what the checks and the collaborators of [transfer]
    do. *)
Ltac transfer_cases w pk recipient amount :=
  unfold transfer, failedCheck in *;
  destruct pk as [pk|];
  [ destruct (isValidSolanaAddress (PublicKey_throws w) recipient) eqn:Hvalid;
    [ destruct (leb amount (S754_zero false)) eqn:Hamount;
      [ | destruct (PublicKey_throws w recipient) eqn:Hkey;
          [ | destruct (SystemProgram_transfer_throws w _) eqn:Hbuild;
              [ | destruct (import_wallet_rejects w) eqn:Himport;
                  [ | destruct (signAndSendTransaction w _) eqn:Hsend ] ] ] ]
    | ]
  | ]; cbn [negb] in *.

Lemma applyAll_app (st : TransferState) (t t' : list event) :
  applyAll st (t ++ t') = applyAll (applyAll st t) t'.
Proof. apply fold_left_app. Qed.

Lemma applyAll_written (t : list event) (st : TransferState) :
  applyAll st t = st \/ In (SetState (applyAll st t)) t.
Proof.
  induction t as [|ev t IH] using rev_ind; [now left|].
  rewrite applyAll_app. cbn.
  destruct ev; cbn.
  - right. apply in_or_app. right. now left.
  - destruct IH as [IH|IH]; [now left | right; apply in_or_app; now left].
  - destruct IH as [IH|IH]; [now left | right; apply in_or_app; now left].
Qed.

Lemma In_firstn {A} (n : nat) (l : list A) (x : A) :
  In x (firstn n l) -> In x l.
Proof.
  revert l; induction n as [|n IH]; intros [|y l]; cbn; try tauto.
  intros [H|H]; [now left | right; now apply IH].
Qed.

Lemma transfer_writes w pk recipient amount s :
  In (SetState s) (trace (transfer w pk recipient amount)) -> agrees s.
Proof.
  transfer_cases w pk recipient amount; cbn; intros H.
  all: repeat (destruct H as [H|H]; [inversion H; subst; clear H|]);
    try contradiction.
  all: unfold agrees; cbn; split; congruence.
Qed.

Lemma agrees_applyAll (st : TransferState) (t : list event) :
  agrees st ->
  (forall s, In (SetState s) t -> agrees s) ->
  agrees (applyAll st t).
Proof.
  intros Hst Ht.
  destruct (applyAll_written t st) as [E|E]; [now rewrite E | now apply Ht].
Qed.

(** C1: in every state the hook reaches through [transfer] and [reset], the
    status agrees with the populated field: [confirmed] has a signature and
    no error, [failed] an error and no signature, [idle] and [pending]
    neither; so at most one of the two is ever non-null. *)
Theorem reachable_agrees (s : TransferState) :
  reachable s ->
  agrees s /\ (signature s = None \/ error s = None).
Proof.
  intros H.
  assert (Hs : agrees s).
  { induction H as [|st w pk recipient amount n _ IH|st n _ IH].
    - unfold agrees; cbn; auto.
    - apply agrees_applyAll; [exact IH|].
      intros s Hs. apply In_firstn in Hs.
      exact (transfer_writes _ _ _ _ _ Hs).
    - apply agrees_applyAll; [exact IH|].
      intros s Hs. apply In_firstn in Hs. cbn in Hs. destruct Hs as [E|[]].
      inversion E. unfold agrees; cbn; auto. }
  split; [exact Hs|].
  unfold agrees in Hs. destruct (status s); tauto.
Qed.

(** The state after a transfer that the wallet confirmed. *)
Lemma reachable_agrees_witness :
  let s := applyAll initialState
             (firstn 4 (trace (transfer (accepting (lit "5VERv8")) (Some (lit "W"))
                                 (lit "R") (ofZ 1)))) in
  status s = confirmed /\ agrees s /\ (signature s = None \/ error s = None).
Proof.
  split; [reflexivity|].
  apply reachable_agrees. apply reach_transfer. apply reach_initial.
Defined.



Lemma valid_constructs (PK : jsstring -> option value) (recipient : jsstring) :
  isValidSolanaAddress PK recipient = true -> PK recipient = None.
Proof.
  unfold isValidSolanaAddress.
  destruct (negb (truthy recipient)); [discriminate|].
  destruct (PK recipient); [discriminate | reflexivity].
Qed.

(** C4, as the code has it: the lamports of the instruction submitted are
    [Math.floor] of the binary64 product [amount * LAMPORTS_PER_SOL], which
    is rounded to nearest before the floor is taken: when that product is
    finite, they are the integer [n] with [n <= product < n + 1].  [0.1]
    gives [100000000], [0.0000000015] gives [1], and [0.3], whose product
    rounds to [300000000], gives [300000000]. *)
Theorem toBaseUnits_floor :
  (forall (amount : number) (s : bool) (m : positive) (e : Z),
     mul amount LAMPORTS_PER_SOL = S754_finite s m e ->
     let n := Qfloor (valueQ s m e) in
     toBaseUnits amount = ofZ n /\
     inject_Z n <= valueQ s m e /\ valueQ s m e < inject_Z (n + 1)) /\
  toBaseUnits (literal 1 10) = ofZ 100000000 /\
  toBaseUnits (literal 15 10000000000) = ofZ 1 /\
  (mul (literal 3 10) LAMPORTS_PER_SOL = ofZ 300000000 /\
   toBaseUnits (literal 3 10) = ofZ 300000000) /\
  (forall w pk recipient amount instructions,
     In (AwaitSignAndSend instructions) (trace (transfer w pk recipient amount)) ->
     exists p, pk = Some p /\
       instructions =
         [{| fromPubkey := p; toPubkey := recipient;
             lamports := toBaseUnits amount |}]).
Proof.
  split; [|split; [|split; [|split]]].
  - intros amount s m e H n. subst n.
    unfold toBaseUnits, Math_floor. rewrite H.
    split; [reflexivity|]. split; [apply Qfloor_le | apply Qlt_floor].
  - vm_compute. reflexivity.
  - vm_compute. reflexivity.
  - split; vm_compute; reflexivity.
  - intros w pk recipient amount instructions.
    transfer_cases w pk recipient amount; cbn; intros H.
    all: repeat (destruct H as [H|H]; [try discriminate H|]); try contradiction.
    all: inversion H; subst; eexists; split; reflexivity.
Qed.

(** C4, as the claim has it, fails: the amount [0.3] is the binary64 number
    [5404319552844595 * 2^-54], a little less than [0.3]; the floor of its
    exact product with [10^9] is [299999999], and the lamports submitted
    are [300000000], one more. *)
Lemma toBaseUnits_rounds_up :
  literal 3 10 = S754_finite false 5404319552844595 (-54) /\
  exactBaseUnits (literal 3 10) = Some 299999999%Z /\
  toBaseUnits (literal 3 10) = ofZ 300000000 /\
  ofZ 300000000 <> ofZ 299999999 /\
  failedCheck (accepting (lit "5VERv8")) (Some (lit "W")) (lit "R") (literal 3 10)
    = None.
Proof.
  split; [vm_compute; reflexivity|].
  split; [vm_compute; reflexivity|].
  split; [vm_compute; reflexivity|].
  split; [vm_compute; discriminate|].
  vm_compute; reflexivity.
Qed.

Lemma toBaseUnits_floor_witness :
  let product := mul (literal 15 10000000000) LAMPORTS_PER_SOL in
  product = S754_finite false 6755399441055744 (-52) /\
  toBaseUnits (literal 15 10000000000) = ofZ 1 /\
  inject_Z 1 <= valueQ false 6755399441055744 (-52) /\
  valueQ false 6755399441055744 (-52) < inject_Z 2.
Proof.
  split; [vm_compute; reflexivity|].
  destruct toBaseUnits_floor as (H & _).
  apply (H (literal 15 10000000000) false 6755399441055744%positive (-52)%Z).
  vm_compute. reflexivity.
Defined.

(** C8, as the code has it: with the wallet connected and both validations
    passed, when [signAndSendTransaction] rejects with an error whose
    message contains [Blockhash not found] and matches none of the nineteen
    rules before that one, the final state is failed, without signature,
    with the error [Transaction expired. Please try again.], and the call
    rejects with the same error. *)
Theorem blockhash_not_found
    (w : World) (p recipient : jsstring) (amount : number)
    (err : value) (msg : jsstring) (st : TransferState) :
  failedCheck w (Some p) recipient amount = None ->
  SystemProgram_transfer_throws w
    {| fromPubkey := p; toPubkey := recipient; lamports := toBaseUnits amount |}
    = None ->
  import_wallet_rejects w = None ->
  signAndSendTransaction w
    [{| fromPubkey := p; toPubkey := recipient; lamports := toBaseUnits amount |}]
    = inr err ->
  Errors.errorMessageOf err = Some msg ->
  includes msg (lit "Blockhash not found") = true ->
  forallb (fun m => negb (Errors.applies m msg)) (firstn 19 Errors.ERROR_MAPPINGS)
    = true ->
  let run := transfer w (Some p) recipient amount in
  applyAll st (trace run) =
    {| isSubmitting := false; signature := None;
       error := Some (lit "Transaction expired. Please try again.");
       status := failed |} /\
  outcome run = inr err.
Proof.
  intros Hc Hbuild Himport Hsend Hmsg Hin Hpre run. subst run.
  assert (E : Errors.transformError err =
              lit "Transaction expired. Please try again.").
  { apply (@ErrorsTheory.first_match_rule
             (firstn 19 Errors.ERROR_MAPPINGS) (skipn 20 Errors.ERROR_MAPPINGS)
             (Errors.str "Blockhash not found" "Transaction expired. Please try again.")
             err msg); auto. }
  unfold failedCheck in Hc.
  destruct (isValidSolanaAddress (PublicKey_throws w) recipient) eqn:Hvalid;
    [|discriminate Hc].
  destruct (leb amount (S754_zero false)) eqn:Hamount; [discriminate Hc|].
  unfold transfer. rewrite Hvalid, Hamount, (valid_constructs _ _ Hvalid).
  cbn [negb]. rewrite Hbuild, Himport, Hsend. cbn. rewrite E. split; reflexivity.
Qed.

Lemma blockhash_not_found_witness :
  let err := newError (lit "Blockhash not found") in
  let run := transfer (rejecting err) (Some (lit "W")) (lit "R") (literal 1 10) in
  applyAll initialState (trace run) =
    {| isSubmitting := false; signature := None;
       error := Some (lit "Transaction expired. Please try again.");
       status := failed |} /\
  outcome run = inr err.
Proof.
  apply (@blockhash_not_found (rejecting (newError (lit "Blockhash not found")))
           (lit "W") (lit "R") (literal 1 10)
           (newError (lit "Blockhash not found")) (lit "Blockhash not found")
           initialState).
  all: vm_compute; reflexivity.
Defined.

(** C8, as the claim has it, fails: the message
    [Transaction simulation failed: Blockhash not found] contains
    [Blockhash not found], and the final error is that of the earlier rule
    for [Transaction simulation failed]. *)
Lemma blockhash_not_found_shadowed :
  let msg := lit "Transaction simulation failed: Blockhash not found" in
  let run := transfer (rejecting (newError msg)) (Some (lit "W")) (lit "R")
               (literal 1 10) in
  includes msg (lit "Blockhash not found") = true /\
  failedCheck (rejecting (newError msg)) (Some (lit "W")) (lit "R") (literal 1 10)
    = None /\
  applyAll initialState (trace run) =
    {| isSubmitting := false; signature := None;
       error := Some (lit "Transaction simulation failed. Please check your inputs.");
       status := failed |}.
Proof.
  vm_compute. repeat split; reflexivity.
Qed.

(** However a call of [transfer] settles, the state it leaves tells the
    same: resolved with a signature, the state is confirmed with that
    signature; rejected with an error, the state is failed with the
    normalised message of that error.  [isSubmitting] is false in both. *)
Theorem transfer_settles
    (w : World) (pk : option jsstring) (recipient : jsstring) (amount : number)
    (st : TransferState) :
  let run := transfer w pk recipient amount in
  applyAll st (trace run) =
    match outcome run with
    | inl sig =>
        {| isSubmitting := false; signature := Some sig; error := None;
           status := confirmed |}
    | inr err =>
        {| isSubmitting := false; signature := None;
           error := Some (Errors.transformError err); status := failed |}
    end.
Proof.
  cbv zeta. transfer_cases w pk recipient amount; cbn; try reflexivity.
  all: f_equal; f_equal; vm_compute; reflexivity.
Qed.

(** Every call that leaves the hook for a collaborator (the dynamic import,
    [signAndSendTransaction]) is made in the pending state, with
    [isSubmitting] true. *)
Theorem external_calls_while_pending
    (w : World) (pk : option jsstring) (recipient : jsstring) (amount : number)
    (st : TransferState) (n : nat) (ev : event) :
  nth_error (trace (transfer w pk recipient amount)) n = Some ev ->
  isExternal ev = true ->
  applyAll st (firstn n (trace (transfer w pk recipient amount))) =
    {| isSubmitting := true; signature := None; error := None;
       status := pending |}.
Proof.
  transfer_cases w pk recipient amount; cbn [trace fst]; cbn; intros H Hev.
  all: do 5 (try (destruct n as [|n]; cbn in H;
                  [ inversion H; subst; try discriminate Hev; try reflexivity | ])).
  all: try discriminate H.
  all: destruct n; discriminate H.
Qed.

Lemma external_calls_while_pending_witness :
  let run := transfer (accepting (lit "5VERv8")) (Some (lit "W")) (lit "R") (ofZ 1) in
  applyAll initialState (firstn 2 (trace run)) =
    {| isSubmitting := true; signature := None; error := None;
       status := pending |}.
Proof.
  apply (@external_calls_while_pending (accepting (lit "5VERv8")) (Some (lit "W"))
           (lit "R") (ofZ 1) initialState 2
           (AwaitSignAndSend
              [{| fromPubkey := lit "W"; toPubkey := lit "R";
                  lamports := toBaseUnits (ofZ 1) |}])).
  - reflexivity.
  - reflexivity.
Defined.

(** [NaN] is not caught by the amount check ([NaN <= 0] is false): with a
    connected wallet and a valid recipient the call goes on to the pending
    state, and the lamports it computes are [NaN]. *)
Theorem nan_amount_not_rejected
    (w : World) (p recipient : jsstring) :
  isValidSolanaAddress (PublicKey_throws w) recipient = true ->
  failedCheck w (Some p) recipient S754_nan = None /\
  toBaseUnits S754_nan = S754_nan /\
  nth_error (trace (transfer w (Some p) recipient S754_nan)) 0 =
    Some (SetState {| isSubmitting := true; signature := None; error := None;
                      status := pending |}).
Proof.
  intros Hv. unfold failedCheck, transfer. rewrite Hv. cbn [negb].
  change (leb S754_nan (S754_zero false)) with false. cbv iota.
  split; [reflexivity|]. split; [reflexivity|].
  rewrite trace_bind. reflexivity.
Qed.

Lemma nan_amount_not_rejected_witness :
  failedCheck (accepting (lit "5VERv8")) (Some (lit "W")) (lit "R") S754_nan = None /\
  toBaseUnits S754_nan = S754_nan /\
  nth_error (trace (transfer (accepting (lit "5VERv8")) (Some (lit "W")) (lit "R")
                      S754_nan)) 0 =
    Some (SetState {| isSubmitting := true; signature := None; error := None;
                      status := pending |}).
Proof.
  apply (@nan_amount_not_rejected (accepting (lit "5VERv8")) (lit "W") (lit "R")).
  reflexivity.
Defined.

Lemma reachable_written (P : TransferState -> Prop) :
  P initialState ->
  (forall w pk recipient amount s,
     In (SetState s) (trace (transfer w pk recipient amount)) -> P s) ->
  forall s, reachable s -> P s.
Proof.
  intros H0 Ht s H.
  assert (A : forall st t, P st -> (forall s, In (SetState s) t -> P s) ->
                           P (applyAll st t)).
  { intros st t Hst Hw.
    destruct (applyAll_written t st) as [E|E]; [now rewrite E | now apply Hw]. }
  induction H as [|st w pk recipient amount n _ IH|st n _ IH].
  - exact H0.
  - apply A; [exact IH|].
    intros s Hs. apply In_firstn in Hs. exact (Ht _ _ _ _ _ Hs).
  - apply A; [exact IH|].
    intros s Hs. apply In_firstn in Hs. cbn in Hs. destruct Hs as [E|[]].
    inversion E. exact H0.
Qed.

(** What [TransactionStatus] renders for the states the hook reaches: the
    pending notice while pending, nothing while idle, and for a failed
    state always the error panel with the state's message, never nothing;
    a confirmed state shows the explorer link unless the signature is the
    empty string. *)
Theorem render_reachable (s : TransferState) :
  reachable s ->
  let view := Display.TransactionStatus.render (signature s) (error s) (status s) in
  match status s with
  | pending => view = Display.TransactionStatus.Pending
  | idle => view = Display.TransactionStatus.Nothing
  | failed =>
      exists e, error s = Some e /\ view = Display.TransactionStatus.Failed e
  | confirmed =>
      exists sig, signature s = Some sig /\
        view = if truthy sig
               then Display.TransactionStatus.Confirmed
                      (Display.TransactionStatus.getExplorerUrl sig)
                      (Display.TransactionStatus.truncateSignature sig)
               else Display.TransactionStatus.Nothing
  end.
Proof.
  intros H. cbv zeta. revert s H. apply reachable_written.
  - reflexivity.
  - intros w pk recipient amount s.
    transfer_cases w pk recipient amount; cbn; intros H.
    all: repeat (destruct H as [H|H]; [inversion H; subst; clear H|]);
      try contradiction.
    all: cbn; try reflexivity.
    all: try (eexists; split; [reflexivity|];
              rewrite ?ErrorsTheory.transformError_nonempty; reflexivity).
Qed.

Lemma render_reachable_witness :
  let s := applyAll initialState
             (trace (transfer (accepting (lit "5VERv8")) None (lit "R") (ofZ 1))) in
  Display.TransactionStatus.render (signature s) (error s) (status s) =
  Display.TransactionStatus.Failed (lit "Please connect your wallet first.").
Proof.
  pose proof (@render_reachable
                (applyAll initialState
                   (firstn 1 (trace (transfer (accepting (lit "5VERv8")) None
                                       (lit "R") (ofZ 1)))))
                (reach_transfer (accepting (lit "5VERv8")) None (lit "R") (ofZ 1) 1
                   reach_initial)) as H.
  cbv zeta in H. destruct H as (e & He & Hv).
  vm_compute in He. inversion He; subst e. exact Hv.
Defined.

End TransferTheory.

(** ** Display helpers and the transfer form *)

Module DisplayTheory.
Import Js Num Eff Reference EffTheory Display.

Lemma slice_head (s : jsstring) (k : Z) :
  (0 <= k <= Z.of_nat (List.length s))%Z ->
  slice s 0 (Some k) = firstn (Z.to_nat k) s.
Proof.
  intros Hk. unfold slice. cbv zeta beta.
  change (0 <? 0)%Z with false. cbv iota.
  destruct (Z.ltb_spec k 0); [lia|].
  rewrite (Z.min_l 0), (Z.min_l k) by lia.
  rewrite Z.sub_0_r, Z.max_l by lia. reflexivity.
Qed.

Lemma slice_tail (s : jsstring) (k : Z) :
  (0 < k <= Z.of_nat (List.length s))%Z ->
  slice s (- k) None = skipn (List.length s - Z.to_nat k) s.
Proof.
  intros Hk. unfold slice. cbv zeta beta.
  destruct (Z.ltb_spec (- k) 0); [|lia].
  rewrite (Z.max_l (Z.of_nat (List.length s) + - k)) by lia.
  replace (Z.to_nat (Z.of_nat (List.length s) + - k))
    with (List.length s - Z.to_nat k)%nat by lia.
  apply firstn_all2. rewrite length_skipn. lia.
Qed.

(** [formatAddress]: the empty string for an empty address; the address
    itself when it has at most [2 * chars] code units; otherwise, for a
    positive [chars], its first [chars] code units, three dots and its
    last [chars] code units, [2 * chars + 3] in all. *)
Theorem formatAddress_shape (address : jsstring) (chars : Z) :
  formatAddress [] chars = [] /\
  ((Z.of_nat (List.length address) <= 2 * chars)%Z ->
   formatAddress address chars = address) /\
  ((0 < chars)%Z -> (2 * chars < Z.of_nat (List.length address))%Z ->
   formatAddress address chars =
     firstn (Z.to_nat chars) address ++ lit "..." ++
     skipn (List.length address - Z.to_nat chars) address /\
   Z.of_nat (List.length (formatAddress address chars)) = (2 * chars + 3)%Z).
Proof.
  split; [reflexivity|]. split.
  - intros H. unfold formatAddress. destruct address as [|c address]; [reflexivity|].
    cbn [truthy negb]. destruct (Z.leb_spec (Z.of_nat (List.length (c :: address))) (chars * 2));
      [reflexivity | lia].
  - intros Hc Hlen. unfold formatAddress.
    destruct address as [|c address]; [cbn [List.length] in Hlen; lia|].
    cbn [truthy negb].
    destruct (Z.leb_spec (Z.of_nat (List.length (c :: address))) (chars * 2)); [lia|].
    rewrite slice_head, slice_tail by lia. split; [reflexivity|].
    rewrite !length_app, length_firstn, length_skipn.
    change (List.length (lit "...")) with 3%nat. lia.
Qed.

Lemma formatAddress_shape_witness :
  formatAddress (lit "7xKXtg2CW87d97TXJSDpbD5jBkheTqA83TZRuJosgAsU") 4 =
  lit "7xKX...gAsU".
Proof.
  destruct (formatAddress_shape
              (lit "7xKXtg2CW87d97TXJSDpbD5jBkheTqA83TZRuJosgAsU") 4)
    as (_ & _ & H).
  destruct H as [H _]; [reflexivity | reflexivity |].
  rewrite H. reflexivity.
Defined.

(** With [chars = 0] the tail [slice(-0)] is the whole string: a non-empty
    address comes back with three dots before it. *)
Theorem formatAddress_zero (address : jsstring) :
  address <> [] -> formatAddress address 0 = lit "..." ++ address.
Proof.
  intros H. destruct address as [|c address]; [congruence|].
  unfold formatAddress. cbn [truthy negb].
  destruct (Z.leb_spec (Z.of_nat (List.length (c :: address))) (0 * 2));
    [cbn [List.length] in *; lia|].
  unfold slice. cbv zeta beta. change (- 0)%Z with 0%Z.
  change (0 <? 0)%Z with false. cbv iota.
  set (len := Z.of_nat (List.length (c :: address))) in *.
  replace (Z.min 0 len) with 0%Z by lia.
  replace (Z.max (0 - 0) 0) with 0%Z by lia.
  replace (Z.max (len - 0) 0) with len by lia.
  change (Z.to_nat 0) with 0%nat. cbn [firstn skipn app].
  subst len. now rewrite Nat2Z.id, firstn_all.
Qed.

Lemma formatAddress_zero_witness :
  formatAddress (lit "abc") 0 = lit "...abc".
Proof.
  apply (@formatAddress_zero (lit "abc")). discriminate.
Defined.

(** [truncateSignature]: a signature of at most 16 code units is shown
    whole; a longer one as its first eight, three dots and its last eight,
    19 code units in all. *)
Theorem truncateSignature_shape (signature : jsstring) :
  ((List.length signature <= 16)%nat ->
   TransactionStatus.truncateSignature signature = signature) /\
  ((16 < List.length signature)%nat ->
   TransactionStatus.truncateSignature signature =
     firstn 8 signature ++ lit "..." ++ skipn (List.length signature - 8) signature /\
   List.length (TransactionStatus.truncateSignature signature) = 19%nat).
Proof.
  unfold TransactionStatus.truncateSignature.
  split; intros H.
  - destruct (Nat.leb_spec (List.length signature) 16); [reflexivity | lia].
  - destruct (Nat.leb_spec (List.length signature) 16); [lia|].
    change (Z.neg 8) with (Z.opp 8).
    rewrite (@slice_head signature 8), (@slice_tail signature 8) by lia.
    split; [reflexivity|].
    rewrite !length_app, length_firstn, length_skipn.
    change (List.length (lit "...")) with 3%nat. lia.
Qed.

Lemma truncateSignature_shape_witness :
  TransactionStatus.truncateSignature
    (lit "5VERv8NMvzbJMEkV8xnrLkEaWRtSz9CosKDYjCJjBRnb")
  = lit "5VERv8NM...jCJjBRnb".
Proof.
  destruct (truncateSignature_shape
              (lit "5VERv8NMvzbJMEkV8xnrLkEaWRtSz9CosKDYjCJjBRnb")) as [_ H].
  destruct H as [H _]; [cbn; lia|].
  rewrite H. reflexivity.
Defined.

(** The explorer link of [TransactionStatus] is the one [getExplorerUrl]
    of constants.ts builds, and different signatures get different
    links; the same holds of account links and addresses. *)
Theorem explorer_urls (a b : jsstring) :
  TransactionStatus.getExplorerUrl a = getExplorerUrl a /\
  (getExplorerUrl a = getExplorerUrl b -> a = b) /\
  (getAccountExplorerUrl a = getAccountExplorerUrl b -> a = b).
Proof.
  split; [reflexivity|].
  split; intros H.
  - unfold getExplorerUrl in H. rewrite !app_assoc in H.
    apply app_inv_tail in H. now apply app_inv_head in H.
  - unfold getAccountExplorerUrl in H. rewrite !app_assoc in H.
    apply app_inv_tail in H. now apply app_inv_head in H.
Qed.

Lemma explorer_urls_witness :
  TransactionStatus.getExplorerUrl (lit "5VERv8") =
  lit "https://explorer.solana.com/tx/5VERv8?cluster=devnet".
Proof.
  destruct (explorer_urls (lit "5VERv8") (lit "5VERv8")) as [H _].
  rewrite H. reflexivity.
Defined.

Section Form.

Variable parseFloat : jsstring -> number.

(** [handleSubmit] never rejects; an amount that parses to [NaN] reaches
    neither the hook nor the form fields; otherwise its effects are those
    of the call of [transfer], followed, when the call resolved and only
    then, by the clearing of the recipient and of the amount: a field is
    set exactly when the transfer resolved, and then to the empty
    string. *)
Theorem handleSubmit_contained
    (w : Transfer.World) (pk : option jsstring) (recipient amount : jsstring) :
  let run := TransferForm.handleSubmit parseFloat w pk recipient amount in
  let call := Transfer.transfer w pk recipient (parseFloat amount) in
  outcome run = inl tt /\
  (TransferForm.isNaN (parseFloat amount) = true ->
   trace run = [TransferForm.PreventDefault]) /\
  (TransferForm.isNaN (parseFloat amount) = false ->
   (In (TransferForm.SetRecipient []) (trace run) <->
    exists sig, outcome call = inl sig)) /\
  (TransferForm.isNaN (parseFloat amount) = false ->
   trace run =
     TransferForm.PreventDefault :: map TransferForm.Hook (trace call) ++
     match outcome call with
     | inl _ => [TransferForm.SetRecipient []; TransferForm.SetAmount []]
     | inr _ => []
     end) /\
  (forall s,
     In (TransferForm.SetRecipient s) (trace run) \/
     In (TransferForm.SetAmount s) (trace run) ->
     s = [] /\ TransferForm.isNaN (parseFloat amount) = false /\
     exists sig, outcome call = inl sig) /\
  (TransferForm.isNaN (parseFloat amount) = false ->
   (exists sig, outcome call = inl sig) ->
   In (TransferForm.SetRecipient []) (trace run) /\
   In (TransferForm.SetAmount []) (trace run)).
Proof.
  cbv zeta. unfold TransferForm.handleSubmit, TransferForm.hook.
  assert (Hook_only : forall (t : list Transfer.event) s,
            ~ In (TransferForm.SetRecipient s) (map TransferForm.Hook t) /\
            ~ In (TransferForm.SetAmount s) (map TransferForm.Hook t)).
  { intros t s. split; intros H; apply in_map_iff in H;
      destruct H as (x & Hx & _); discriminate Hx. }
  destruct (TransferForm.isNaN (parseFloat amount)).
  - split; [reflexivity|]. split; [reflexivity|].
    split; [discriminate|]. split; [discriminate|].
    split; [|discriminate].
    intros s [H|H]; cbn in H; destruct H as [H|[]]; discriminate H.
  - destruct (Transfer.transfer w pk recipient (parseFloat amount))
      as [t [sig|err]]; cbn.
    + split; [reflexivity|]. split; [discriminate|]. split.
      { intros _. split.
        - intros _. now exists sig.
        - intros _. right. apply in_or_app. right. now left. }
      split; [reflexivity|]. split.
      { intros s H. assert (E : s = []).
        { destruct (Hook_only t s) as [NR NA].
          destruct H as [[H|H]|[H|H]]; try discriminate H;
            apply in_app_or in H; destruct H as [H|H]; try tauto;
            cbn in H; destruct H as [H|[H|[]]]; congruence. }
        split; [exact E|]. split; [reflexivity|]. now exists sig. }
      intros _ _. split; right; apply in_or_app; right; cbn; auto.
    + rewrite !app_nil_r.
      split; [reflexivity|]. split; [discriminate|]. split.
      { intros _. split.
        - intros [H|H]; [discriminate H|].
          destruct (Hook_only t (@nil codeunit)) as [NR _]. tauto.
        - intros [sig H]. discriminate H. }
      split; [reflexivity|]. split.
      { intros s H. destruct (Hook_only t s) as [NR NA].
        destruct H as [[H|H]|[H|H]]; try discriminate H; tauto. }
      intros _ [sig H]. discriminate H.
Qed.

End Form.

End DisplayTheory.

(** ** The balance hook *)

Module BalanceTheory.
Import Js Num Solana Balance Reference.

(** C2, as the claim has it, fails: a read dispatched for [A] that completes
    after the address changed to [B], and after the read for [B], replaces
    the result for [B]. *)
Lemma stale_result_applied :
  let PK := fun _ : jsstring => @None value in
  let h := run PK initial
             [Mount (Some (lit "A")); Render (Some (lit "B"));
              Resolve 1 (ofZ 2); Resolve 0 (ofZ 1)] in
  walletAddress h = Some (lit "B") /\
  balanceLamports (state h) = Some (ofZ 1) /\
  ~ StaleResultDiscarded PK.
Proof.
  cbv zeta. split; [reflexivity|]. split; [reflexivity|].
  intros H.
  specialize (H [Mount (Some (lit "A")); Render (Some (lit "B")); Resolve 1 (ofZ 2)]
                0%nat (lit "A") (ofZ 1)).
  cbv zeta in H.
  assert (H1 : nth_error
                 (inflight
                    (run (fun _ : jsstring => None) initial
                       [Mount (Some (lit "A")); Render (Some (lit "B"));
                        Resolve 1 (ofZ 2)])) 0 = Some (lit "A"))
    by reflexivity.
  assert (H2 : walletAddress
                 (run (fun _ : jsstring => None) initial
                    [Mount (Some (lit "A")); Render (Some (lit "B"));
                     Resolve 1 (ofZ 2)]) <> Some (lit "A")).
  { vm_compute. discriminate. }
  destruct (H H1 H2) as [E _]. vm_compute in E. discriminate E.
Qed.

(** C2, as the code has it: a read that completes is applied whatever the
    current address is: the lamports it returned and their quotient by
    [LAMPORTS_PER_SOL] become the balance, loading ends, and the current
    address is left as it is. *)
Theorem completed_read_applied
    (PK : jsstring -> option value) (l : list action) (i : nat) (a : jsstring)
    (lamports : number) :
  let h := run PK initial l in
  nth_error (inflight h) i = Some a ->
  let h' := step PK h (Resolve i lamports) in
  balanceLamports (state h') = Some lamports /\
  balance (state h') = Some (div lamports LAMPORTS_PER_SOL) /\
  isLoading (state h') = false /\
  walletAddress h' = walletAddress h.
Proof.
  intros h Hi h'. subst h'. cbn. rewrite Hi. cbn. auto.
Qed.

Lemma completed_read_applied_witness :
  let PK := fun _ : jsstring => @None value in
  let h := run PK initial
             [Mount (Some (lit "A")); Render (Some (lit "B")); Resolve 1 (ofZ 2)] in
  let h' := step PK h (Resolve 0 (ofZ 1)) in
  walletAddress h = Some (lit "B") /\
  balanceLamports (state h') = Some (ofZ 1) /\
  balance (state h') = Some (div (ofZ 1) LAMPORTS_PER_SOL) /\
  isLoading (state h') = false /\
  walletAddress h' = walletAddress h.
Proof.
  split; [reflexivity|].
  apply (@completed_read_applied (fun _ => None)
           [Mount (Some (lit "A")); Render (Some (lit "B")); Resolve 1 (ofZ 2)]
           0%nat (lit "A") (ofZ 1)).
  reflexivity.
Defined.

Section Runs.

Variable PK : jsstring -> option value.

Lemma run_invariant (I : Hook -> Prop) (keep : action -> bool) :
  (forall h a, keep a = true -> I h -> I (step PK h a)) ->
  forall l h, forallb keep l = true -> I h -> I (run PK h l).
Proof.
  intros Hstep l. induction l as [|a l IH]; intros h Hl Hh; [exact Hh|].
  cbn in Hl. apply andb_true_iff in Hl. destruct Hl as [Ha Hl].
  cbn. apply IH; [exact Hl|]. now apply Hstep.
Qed.

Lemma fetchBalance_frame (address : option jsstring) (h : Hook) :
  walletAddress (fetchBalance PK address h) = walletAddress h /\
  interval (fetchBalance PK address h) = interval h /\
  connection (fetchBalance PK address h) = connection h.
Proof.
  unfold fetchBalance. destruct address as [a|]; [|now cbn].
  destruct (truthy a && connection h); [|now cbn].
  destruct (PK a); now cbn.
Qed.

Lemma fetchBalance_fieldsAgree (address : option jsstring) (h : Hook) :
  fieldsAgree h -> fieldsAgree (fetchBalance PK address h).
Proof.
  unfold fieldsAgree, fetchBalance. intros H.
  destruct address as [a|]; [|reflexivity].
  destruct (truthy a && connection h); [|reflexivity].
  destruct (PK a); [reflexivity | exact H].
Qed.

Lemma fetchBalance_loadingInflight (address : option jsstring) (h : Hook) :
  loadingInflight h -> loadingInflight (fetchBalance PK address h).
Proof.
  unfold loadingInflight, fetchBalance. intros H.
  destruct address as [a|]; [|exact H].
  destruct (truthy a && connection h); [|exact H].
  destruct (PK a); cbn; [discriminate|].
  intros _ E. now apply app_eq_nil in E as [_ E].
Qed.

Lemma step_fieldsAgree (h : Hook) (a : action) :
  fieldsAgree h -> fieldsAgree (step PK h a).
Proof.
  intros H. destruct a as [address|address| | |i lamports|i err|]; cbn [step].
  - unfold effect.
    set (h0 := {| state := state h; walletAddress := address; connection := true;
                  interval := interval h; inflight := inflight h |}).
    assert (H0 : fieldsAgree (fetchBalance PK address h0))
      by (apply fetchBalance_fieldsAgree; exact H).
    destruct address as [a|]; [destruct (truthy a)|]; exact H0.
  - destruct (sameAddress address (walletAddress h)); [exact H|].
    unfold effect.
    set (h0 := {| state := state h; walletAddress := address;
                  connection := connection h; interval := None;
                  inflight := inflight h |}).
    assert (H0 : fieldsAgree (fetchBalance PK address h0))
      by (apply fetchBalance_fieldsAgree; exact H).
    destruct address as [a|]; [destruct (truthy a)|]; exact H0.
  - destruct (interval h); [now apply fetchBalance_fieldsAgree | exact H].
  - now apply fetchBalance_fieldsAgree.
  - destruct (nth_error (inflight h) i); [reflexivity | exact H].
  - destruct (nth_error (inflight h) i); [reflexivity | exact H].
  - exact H.
Qed.

Lemma step_loadingInflight (h : Hook) (a : action) :
  loadingInflight h -> loadingInflight (step PK h a).
Proof.
  intros H. destruct a as [address|address| | |i lamports|i err|]; cbn [step].
  - unfold effect.
    set (h0 := {| state := state h; walletAddress := address; connection := true;
                  interval := interval h; inflight := inflight h |}).
    assert (H0 : loadingInflight (fetchBalance PK address h0))
      by (apply fetchBalance_loadingInflight; exact H).
    destruct address as [a|]; [destruct (truthy a)|]; exact H0.
  - destruct (sameAddress address (walletAddress h)); [exact H|].
    unfold effect.
    set (h0 := {| state := state h; walletAddress := address;
                  connection := connection h; interval := None;
                  inflight := inflight h |}).
    assert (H0 : loadingInflight (fetchBalance PK address h0))
      by (apply fetchBalance_loadingInflight; exact H).
    destruct address as [a|]; [destruct (truthy a)|]; exact H0.
  - destruct (interval h); [now apply fetchBalance_loadingInflight | exact H].
  - now apply fetchBalance_loadingInflight.
  - destruct (nth_error (inflight h) i); [|exact H]. intros E. discriminate E.
  - destruct (nth_error (inflight h) i); [|exact H]. intros E. discriminate E.
  - exact H.
Qed.

(** In every state of the hook, [balance] and [balanceLamports] are both
    null or both set, and then [balance] is [balanceLamports] divided by
    [LAMPORTS_PER_SOL]. *)
Theorem balance_fields_agree (l : list action) :
  let h := run PK initial l in
  balance (state h) =
  option_map (fun lamports => div lamports LAMPORTS_PER_SOL)
    (balanceLamports (state h)).
Proof.
  apply (@run_invariant fieldsAgree (fun _ => true)).
  - intros h a _. apply step_fieldsAgree.
  - apply forallb_forall. reflexivity.
  - reflexivity.
Qed.

(** [isLoading] is true only while a [getBalance] read is in flight: once
    every read has completed, the hook is not loading. *)
Theorem loading_has_read_in_flight (l : list action) :
  let h := run PK initial l in
  isLoading (state h) = true -> inflight h <> [].
Proof.
  apply (@run_invariant loadingInflight (fun _ => true)).
  - intros h a _. apply step_loadingInflight.
  - apply forallb_forall. reflexivity.
  - discriminate.
Qed.

Lemma effect_timerCurrent (address : option jsstring) (h : Hook) :
  walletAddress h = address -> interval h = None ->
  timerCurrent (effect PK address h).
Proof.
  intros Hw Hi. unfold effect.
  destruct (fetchBalance_frame address h) as (Fw & Fi & _).
  destruct address as [a|].
  - destruct (truthy a) eqn:T.
    + intros b E. cbn [interval] in E. inversion E; subst b.
      cbn [walletAddress]. rewrite Fw. auto.
    + intros b E. rewrite Fi, Hi in E. discriminate E.
  - intros b E. rewrite Fi, Hi in E. discriminate E.
Qed.

Lemma step_timerCurrent (h : Hook) (a : action) :
  (match a with Mount _ => false | _ => true end) = true ->
  timerCurrent h -> timerCurrent (step PK h a).
Proof.
  intros Ha H. destruct a as [address|address| | |i lamports|i err|];
    cbn [step]; try discriminate Ha.
  - destruct (sameAddress address (walletAddress h)); [exact H|].
    now apply effect_timerCurrent.
  - destruct (interval h) as [b|] eqn:E; [|exact H].
    destruct (fetchBalance_frame (Some b) h) as (Fw & Fi & _).
    intros c Ec. rewrite Fi in Ec. rewrite Fw. now apply H.
  - destruct (fetchBalance_frame (walletAddress h) h) as (Fw & Fi & _).
    intros c Ec. rewrite Fi in Ec. rewrite Fw. now apply H.
  - destruct (nth_error (inflight h) i); exact H.
  - destruct (nth_error (inflight h) i); exact H.
  - intros c Ec. discriminate Ec.
Qed.

(** For a hook mounted once, the interval timer, when set, polls the
    address of the latest render, and that address is not empty. *)
Theorem timer_polls_current_address
    (address : option jsstring) (l : list action) (a : jsstring) :
  noMount l = true ->
  let h := run PK initial (Mount address :: l) in
  interval h = Some a ->
  walletAddress h = Some a /\ truthy a = true.
Proof.
  intros Hl h. subst h. cbn [run fold_left].
  revert a. change (timerCurrent (run PK (step PK initial (Mount address)) l)).
  apply (@run_invariant timerCurrent
           (fun a => match a with Mount _ => false | _ => true end)).
  - intros h a. apply step_timerCurrent.
  - exact Hl.
  - cbn [step]. now apply effect_timerCurrent.
Qed.

End Runs.

Lemma loading_has_read_in_flight_witness :
  inflight (run (fun _ => None) initial [Mount (Some (lit "A"))]) <> [].
Proof.
  apply (@loading_has_read_in_flight (fun _ => None) [Mount (Some (lit "A"))]).
  reflexivity.
Defined.

Lemma timer_polls_current_address_witness :
  let h := run (fun _ => None) initial
             [Mount (Some (lit "A")); Render (Some (lit "B")); Tick] in
  walletAddress h = Some (lit "B") /\ truthy (lit "B") = true.
Proof.
  apply (@timer_polls_current_address (fun _ => None) (Some (lit "A"))
           [Render (Some (lit "B")); Tick] (lit "B")).
  - reflexivity.
  - reflexivity.
Defined.

Local Open Scope Z_scope.

Lemma digitsAcc_app (fuel : nat) (n : Z) (acc : jsstring) :
  digitsAcc fuel n acc = digitsAcc fuel n [] ++ acc.
Proof.
  revert n acc; induction fuel as [|fuel IH]; intros n acc; cbn; [reflexivity|].
  destruct (n <? 10); [reflexivity|].
  rewrite (IH _ (_ :: acc)), (IH _ [_]), <- app_assoc. reflexivity.
Qed.

Lemma digitsAcc_fuel (f g : nat) (n : Z) (acc : jsstring) :
  0 <= n -> n < 10 ^ Z.of_nat (S f) -> n < 10 ^ Z.of_nat (S g) ->
  digitsAcc f n acc = digitsAcc g n acc.
Proof.
  revert g n acc; induction f as [|f IH]; intros g n acc Hn Hf Hg.
  - change (10 ^ Z.of_nat 1) with 10 in Hf.
    destruct g; cbn; [reflexivity|].
    destruct (Z.ltb_spec n 10); [reflexivity | lia].
  - cbn [digitsAcc]. destruct (Z.ltb_spec n 10) as [Hlt|Hge].
    + destruct g; cbn; [reflexivity|].
      destruct (Z.ltb_spec n 10); [reflexivity | lia].
    + destruct g as [|g].
      * change (10 ^ Z.of_nat 1) with 10 in Hg. lia.
      * cbn [digitsAcc]. destruct (Z.ltb_spec n 10); [lia|].
        apply IH.
        -- apply Z.div_pos; lia.
        -- apply Z.div_lt_upper_bound; [lia|].
           rewrite (Nat2Z.inj_succ (S f)), Z.pow_succ_r in Hf by lia. exact Hf.
        -- apply Z.div_lt_upper_bound; [lia|].
           rewrite (Nat2Z.inj_succ (S g)), Z.pow_succ_r in Hg by lia. exact Hg.
Qed.

Lemma log2_fuel (n : Z) : 0 <= n -> n < 10 ^ Z.of_nat (S (Z.to_nat (Z.log2 n))).
Proof.
  intros Hn. rewrite Nat2Z.inj_succ, Z2Nat.id by apply Z.log2_nonneg.
  destruct (Z.eq_dec n 0) as [->|Hz]; [reflexivity|].
  apply Z.lt_le_trans with (2 ^ Z.succ (Z.log2 n)).
  - apply Z.log2_spec. lia.
  - apply Z.pow_le_mono_l. lia.
Qed.

Lemma digits_small (n : Z) : 0 <= n < 10 -> digits n = [digit n].
Proof.
  intros Hn. unfold digits.
  assert (H1 : n < 10 ^ Z.of_nat 1) by (change (10 ^ Z.of_nat 1) with 10; lia).
  rewrite (@digitsAcc_fuel _ 0%nat n [] (proj1 Hn) (log2_fuel (proj1 Hn)) H1).
  cbn. rewrite Z.mod_small by lia. reflexivity.
Qed.

Lemma digits_step (n : Z) :
  10 <= n -> digits n = digits (n / 10) ++ [digit (n mod 10)].
Proof.
  intros Hn. unfold digits.
  assert (H0 : 0 <= n / 10) by (apply Z.div_pos; lia).
  assert (Hn0 : 0 <= n) by lia.
  assert (H1 : n < 10 ^ Z.of_nat (S (S (Z.to_nat (Z.log2 (n / 10)))))).
  { pose proof (log2_fuel H0) as H.
    rewrite (Nat2Z.inj_succ (S _)), Z.pow_succ_r by lia.
    pose proof (Z.div_mod n 10). pose proof (Z.mod_pos_bound n 10). lia. }
  rewrite (@digitsAcc_fuel _ _ n [] Hn0 (log2_fuel Hn0) H1).
  cbn [digitsAcc]. destruct (Z.ltb_spec n 10); [lia|].
  apply digitsAcc_app.
Qed.

Lemma digits_split (n : Z) :
  10000 <= n ->
  digits n = digits (n / 10000) ++ fractionDigits (n mod 10000).
Proof.
  intros Hn.
  assert (H1 : 10 <= n / 10) by (Z.to_euclidean_division_equations; lia).
  assert (H2 : 10 <= n / 10 / 10) by (Z.to_euclidean_division_equations; lia).
  assert (H3 : 10 <= n / 10 / 10 / 10) by (Z.to_euclidean_division_equations; lia).
  rewrite (digits_step (n := n)) by lia.
  rewrite (digits_step H1), (digits_step H2), (digits_step H3).
  rewrite <- !app_assoc. cbn [app]. unfold fractionDigits.
  assert (E0 : n / 10 / 10 / 10 / 10 = n / 10000)
    by (Z.to_euclidean_division_equations; lia).
  assert (E1 : (n / 10 / 10 / 10) mod 10 = n mod 10000 / 1000)
    by (Z.to_euclidean_division_equations; lia).
  assert (E2 : (n / 10 / 10) mod 10 = n mod 10000 / 100 mod 10)
    by (Z.to_euclidean_division_equations; lia).
  assert (E3 : (n / 10) mod 10 = n mod 10000 / 10 mod 10)
    by (Z.to_euclidean_division_equations; lia).
  assert (E4 : n mod 10 = n mod 10000 mod 10)
    by (Z.to_euclidean_division_equations; lia).
  rewrite E0, E1, E2, E3, E4. reflexivity.
Qed.

Lemma digits_pad (n : Z) :
  0 <= n < 10000 ->
  repeat (digit 0) (5 - List.length (digits n)) ++ digits n =
  digit 0 :: fractionDigits n.
Proof.
  intros Hn. unfold fractionDigits.
  destruct (Z.ltb_spec n 10) as [A|A].
  { rewrite digits_small by lia. cbn [List.length Nat.sub repeat app].
    replace (n / 1000) with 0 by (Z.to_euclidean_division_equations; lia).
    replace (n / 100 mod 10) with 0 by (Z.to_euclidean_division_equations; lia).
    replace (n / 10 mod 10) with 0 by (Z.to_euclidean_division_equations; lia).
    replace (n mod 10) with n by (Z.to_euclidean_division_equations; lia).
    reflexivity. }
  rewrite (digits_step A).
  destruct (Z.ltb_spec (n / 10) 10) as [B|B].
  { rewrite digits_small by (Z.to_euclidean_division_equations; lia).
    cbn [List.length Nat.sub repeat app].
    replace (n / 1000) with 0 by (Z.to_euclidean_division_equations; lia).
    replace (n / 100 mod 10) with 0 by (Z.to_euclidean_division_equations; lia).
    replace (n / 10 mod 10) with (n / 10)
      by (Z.to_euclidean_division_equations; lia).
    reflexivity. }
  rewrite (digits_step B).
  destruct (Z.ltb_spec (n / 10 / 10) 10) as [C|C].
  { rewrite digits_small by (Z.to_euclidean_division_equations; lia).
    cbn [List.length Nat.sub repeat app].
    replace (n / 1000) with 0 by (Z.to_euclidean_division_equations; lia).
    replace (n / 100 mod 10) with (n / 10 / 10)
      by (Z.to_euclidean_division_equations; lia).
    reflexivity. }
  rewrite (digits_step C).
  rewrite digits_small by (Z.to_euclidean_division_equations; lia).
  cbn [List.length Nat.sub repeat app].
  replace (n / 1000) with (n / 10 / 10 / 10)
    by (Z.to_euclidean_division_equations; lia).
  replace (n / 100 mod 10) with ((n / 10 / 10) mod 10)
    by (Z.to_euclidean_division_equations; lia).
  reflexivity.
Qed.

Lemma digit_isDigit (d : Z) : 0 <= d <= 9 -> isDigit (digit d).
Proof. unfold isDigit, digit. lia. Qed.

Lemma digitsAcc_isDigit (fuel : nat) (n : Z) (acc : jsstring) :
  Forall isDigit acc -> Forall isDigit (digitsAcc fuel n acc).
Proof.
  revert n acc; induction fuel as [|fuel IH]; intros n acc Hacc; cbn.
  - constructor; [|exact Hacc].
    apply digit_isDigit. pose proof (Z.mod_pos_bound n 10). lia.
  - assert (Hd : isDigit (digit (n mod 10)))
      by (apply digit_isDigit; pose proof (Z.mod_pos_bound n 10); lia).
    destruct (n <? 10); [now constructor|].
    apply IH. now constructor.
Qed.

Lemma digits_isDigit (n : Z) : Forall isDigit (digits n).
Proof. apply digitsAcc_isDigit. constructor. Qed.

Lemma fractionDigits_isDigit (r : Z) :
  0 <= r < 10000 -> Forall isDigit (fractionDigits r).
Proof.
  intros Hr. unfold fractionDigits.
  repeat constructor; apply digit_isDigit;
    Z.to_euclidean_division_equations; lia.
Qed.

Lemma dropTrailingZeros_nil (l : jsstring) :
  dropTrailingZeros l = [] <-> forallb (N.eqb 48) l = true.
Proof.
  induction l as [|c l IH]; cbn [dropTrailingZeros forallb]; [tauto|].
  destruct (dropTrailingZeros l) eqn:E.
  - destruct IH as [IH _]. rewrite (IH eq_refl), andb_true_r.
    rewrite (N.eqb_sym 48 c). destruct (N.eqb c 48); split; congruence.
  - split; [discriminate|]. intros H. apply andb_true_iff in H.
    destruct IH as [_ IH]. destruct H as [_ H]. discriminate (IH H).
Qed.

Lemma zeros_forallb (l : jsstring) :
  l <> [] -> zeros l = forallb (N.eqb 48) l.
Proof. destruct l; [congruence | reflexivity]. Qed.

Lemma stripZeros_fraction (l : jsstring) :
  Forall isDigit l -> stripZeros l = dropTrailingZeros l.
Proof.
  induction 1 as [|c l Hc Hl IH]; [reflexivity|].
  cbn [stripZeros matchesHere dropTrailingZeros].
  assert (E : N.eqb c 46 = false) by (apply N.eqb_neq; unfold isDigit in Hc; lia).
  rewrite E, zeros_forallb by discriminate.
  destruct (forallb (N.eqb 48) (c :: l)) eqn:Hz.
  - pose proof (proj2 (dropTrailingZeros_nil (c :: l)) Hz) as H.
    cbn [dropTrailingZeros] in H. now rewrite H.
  - rewrite IH. destruct (dropTrailingZeros l) eqn:D; [|reflexivity].
    pose proof (proj1 (dropTrailingZeros_nil l) D) as H.
    cbn [forallb] in Hz. rewrite H, andb_true_r, N.eqb_sym in Hz. now rewrite Hz.
Qed.

Lemma stripZeros_point (int frac : jsstring) :
  Forall isDigit int -> Forall isDigit frac -> frac <> [] ->
  stripZeros (int ++ lit "." ++ frac) =
  int ++ match dropTrailingZeros frac with
         | [] => []
         | f => lit "." ++ f
         end.
Proof.
  intros Hint Hfrac Hne.
  induction Hint as [|c int Hc Hint IH].
  - cbn [app]. change (lit "." ++ frac) with (46%N :: frac).
    cbn [stripZeros matchesHere]. rewrite N.eqb_refl.
    rewrite zeros_forallb by exact Hne.
    destruct (forallb (N.eqb 48) frac) eqn:Hz.
    + now rewrite (proj2 (dropTrailingZeros_nil frac) Hz).
    + rewrite (stripZeros_fraction Hfrac).
      destruct (dropTrailingZeros frac) eqn:D; [|reflexivity].
      rewrite (proj1 (dropTrailingZeros_nil frac) D) in Hz. discriminate.
  - cbn [app stripZeros matchesHere].
    assert (E : N.eqb c 46 = false)
      by (apply N.eqb_neq; unfold isDigit in Hc; lia).
    rewrite E.
    assert (Z : zeros (c :: int ++ lit "." ++ frac) = false).
    { cbn [zeros forallb]. apply andb_false_iff. right.
      rewrite forallb_app. apply andb_false_iff. right. reflexivity. }
    rewrite Z. now rewrite IH.
Qed.

Lemma digits_length (n : Z) : (1 <= List.length (digits n))%nat.
Proof.
  unfold digits. generalize (Z.to_nat (Z.log2 n)) as fuel.
  intros fuel. rewrite digitsAcc_app.
  revert n; induction fuel as [|fuel IH]; intros n; cbn.
  - lia.
  - destruct (n <? 10); cbn; [lia|].
    rewrite digitsAcc_app, !length_app. cbn. lia.
Qed.

Lemma point_set (n : Z) :
  0 <= n ->
  let m := repeat (digit 0) (5 - List.length (digits n)) ++ digits n in
  firstn (List.length m - 4) m ++ lit "." ++ skipn (List.length m - 4) m =
  digits (n / 10000) ++ lit "." ++ fractionDigits (n mod 10000).
Proof.
  intros Hn. destruct (Z.ltb_spec n 10000) as [A|A].
  - rewrite digits_pad by lia. cbv zeta.
    rewrite Z.div_small, Z.mod_small by lia. reflexivity.
  - pose proof (digits_length (n / 10000)) as L.
    rewrite (digits_split A). rewrite !length_app.
    change (List.length (fractionDigits (n mod 10000))) with 4%nat.
    replace (5 - (List.length (digits (n / 10000)) + 4))%nat with 0%nat by lia.
    cbv zeta. cbn [repeat app]. rewrite !length_app.
    change (List.length (fractionDigits (n mod 10000))) with 4%nat.
    replace (List.length (digits (n / 10000)) + 4 - 4)%nat
      with (List.length (digits (n / 10000))) by lia.
    rewrite firstn_app, skipn_app, firstn_all, skipn_all, Nat.sub_diag.
    cbn [firstn skipn app]. now rewrite app_nil_r.
Qed.

Lemma valueQ_pos (m : positive) (e : Z) : (0 < valueQ false m e)%Q.
Proof.
  unfold valueQ. cbn [cond_Zopp].
  destruct e as [|p|p]; unfold Qlt; cbn [Qnum Qden inject_Z].
  - lia.
  - assert (0 < 2 ^ Z.pos p) by (apply Z.pow_pos_nonneg; lia). nia.
  - lia.
Qed.

Lemma rounded_nonneg (x : Q) : (0 < x)%Q -> 0 <= rounded x.
Proof.
  intros Hx. unfold rounded.
  change 0 with (Qfloor 0). apply Qfloor_resp_le.
  change (inject_Z 10000) with (10000 # 1)%Q. lra.
Qed.

Lemma rounded_nearest (x : Q) :
  (inject_Z (rounded x) - (1 # 2) <= x * inject_Z 10000 /\
   x * inject_Z 10000 < inject_Z (rounded x) + (1 # 2))%Q.
Proof.
  unfold rounded.
  pose proof (Qfloor_le (x * inject_Z 10000 + (1 # 2))) as L.
  pose proof (Qlt_floor (x * inject_Z 10000 + (1 # 2))) as U.
  rewrite inject_Z_plus in U. change (inject_Z 1) with 1%Q in U.
  change (inject_Z 10000) with (10000 # 1)%Q in *.
  split; lra.
Qed.

Section Format.

Variable NT : number -> jsstring.

Lemma toFixed_4 (m : positive) (e : Z) :
  (valueQ false m e < inject_Z (10 ^ 21))%Q ->
  toFixed NT (S754_finite false m e) 4 =
  digits (rounded (valueQ false m e) / 10000) ++ lit "." ++
  fractionDigits (rounded (valueQ false m e) mod 10000).
Proof.
  intros Hx. unfold toFixed.
  destruct (Qle_bool (inject_Z (10 ^ 21)) (valueQ false m e)) eqn:B.
  - apply Qle_bool_iff in B. lra.
  - cbv zeta. cbn [app].
    apply (point_set (rounded_nonneg (valueQ_pos m e))).
Qed.

Lemma formatBalance_regular (s : bool) (m : positive) (e : Z) :
  ltb (S754_finite s m e) (literal 1 10000) = false ->
  (valueQ false m e < inject_Z (10 ^ 21))%Q ->
  s = false /\
  formatBalance NT (S754_finite s m e) = fixed4 (rounded (valueQ s m e)).
Proof.
  intros Hlt Hx.
  assert (Hs : s = false).
  { destruct s; [|reflexivity]. vm_compute in Hlt. discriminate Hlt. }
  subst s. split; [reflexivity|].
  unfold formatBalance. rewrite Hlt.
  change (strictEq (S754_finite false m e) (ofZ 0)) with false.
  rewrite (toFixed_4 m e Hx). unfold fixed4.
  apply stripZeros_point.
  - apply digits_isDigit.
  - apply fractionDigits_isDigit. apply Z.mod_pos_bound. lia.
  - discriminate.
Qed.


(** C9, as the code has it: [0] for a zero balance; [< 0.0001] for any other
    balance below [0.0001]; and for a finite balance from [0.0001] up (below
    [10^21]) the numeral of the balance rounded to the nearest
    ten-thousandth, upwards from the middle, without trailing zeros and
    without a point when no decimals are left.  [formatBalance(0)] is [0],
    [formatBalance(0.00001)] is [< 0.0001], [formatBalance(1.23)] is
    [1.23].  The balance stored is [lamports / LAMPORTS_PER_SOL]. *)
Theorem formatBalance_rounds :
  (forall b, strictEq b (ofZ 0) = true -> formatBalance NT b = lit "0") /\
  (forall b, strictEq b (ofZ 0) = false -> ltb b (literal 1 10000) = true ->
     formatBalance NT b = lit "< 0.0001") /\
  (forall s m e,
     ltb (S754_finite s m e) (literal 1 10000) = false ->
     (valueQ false m e < inject_Z (10 ^ 21))%Q ->
     let n := rounded (valueQ s m e) in
     formatBalance NT (S754_finite s m e) = fixed4 n /\
     (inject_Z n - (1 # 2) <= valueQ s m e * inject_Z 10000 /\
      valueQ s m e * inject_Z 10000 < inject_Z n + (1 # 2))%Q) /\
  formatBalance NT (ofZ 0) = lit "0" /\
  formatBalance NT (literal 1 100000) = lit "< 0.0001" /\
  formatBalance NT (literal 123 100) = lit "1.23" /\
  (forall lamports st,
     balance (onResolved lamports st) = Some (div lamports LAMPORTS_PER_SOL)).
Proof.
  split; [|split; [|split; [|split; [|split; [|split]]]]].
  - intros b H. unfold formatBalance. now rewrite H.
  - intros b H0 H1. unfold formatBalance. now rewrite H0, H1.
  - intros s m e Hlt Hx n. subst n.
    destruct (formatBalance_regular s m e Hlt Hx) as [_ E].
    split; [exact E | apply rounded_nearest].
  - reflexivity.
  - vm_compute. reflexivity.
  - vm_compute. reflexivity.
  - reflexivity.
Qed.

End Format.

(** The balance [1.23], as a binary64 number, is a little less than
    [1.23]; its nearest ten-thousandth is [12300]. *)
Lemma formatBalance_rounds_witness :
  let NT := fun _ : number => @nil codeunit in
  let n := rounded (valueQ false 5539427541665710 (-52)) in
  literal 123 100 = S754_finite false 5539427541665710 (-52) /\
  n = 12300 /\
  formatBalance NT (S754_finite false 5539427541665710 (-52)) = fixed4 n /\
  (inject_Z n - (1 # 2) <= valueQ false 5539427541665710 (-52) * inject_Z 10000 /\
   valueQ false 5539427541665710 (-52) * inject_Z 10000 < inject_Z n + (1 # 2))%Q.
Proof.
  split; [vm_compute; reflexivity|]. split; [vm_compute; reflexivity|].
  destruct (formatBalance_rounds (fun _ : number => @nil codeunit))
    as (_ & _ & H & _).
  apply (H false 5539427541665710%positive (-52)).
  - vm_compute. reflexivity.
  - vm_compute. reflexivity.
Defined.

(** C9, as the claim has it, fails: the balance of [999960000] lamports,
    which is below [1], is shown as [1]; cut off after the fourth decimal
    it would be [0.9999]. *)
Lemma formatBalance_not_truncating :
  let b := div (ofZ 999960000) LAMPORTS_PER_SOL in
  b = S754_finite false 9006838966770802 (-53) /\
  (valueQ false 9006838966770802 (-53) < 1)%Q /\
  formatBalance (fun _ : number => @nil codeunit) b = lit "1" /\
  formatBalanceTruncating b = lit "0.9999".
Proof.
  vm_compute. repeat split; reflexivity.
Qed.

(** Whenever [WalletBalance] shows an amount, the hook is not loading, has
    no error message, and the amount is that of [balanceLamports] in the
    same state: [formatBalance(lamports / LAMPORTS_PER_SOL)] followed by
    [ SOL]; the link is the explorer page of the address. *)
Theorem amount_shown_is_current
    (PK : jsstring -> option value) (NT : number -> jsstring)
    (l : list action) (address text url : jsstring) :
  let h := run PK initial l in
  Display.WalletBalance.render NT (Some address) (state h) =
    Some (Display.WalletBalance.Amount text, url) ->
  isLoading (state h) = false /\
  (exists lamports,
     balanceLamports (state h) = Some lamports /\
     text = formatBalance NT (div lamports LAMPORTS_PER_SOL) ++ lit " SOL") /\
  url = Display.getAccountExplorerUrl address.
Proof.
  intros h. pose proof (balance_fields_agree PK l) as F. cbv zeta in F.
  fold h in F. unfold Display.WalletBalance.render.
  destruct (negb (truthy address)); [discriminate|].
  destruct (isLoading (state h)); [discriminate|].
  assert (A : forall b,
            balance (state h) = Some b ->
            Some (Display.WalletBalance.Amount (formatBalance NT b ++ lit " SOL"),
                  Display.getAccountExplorerUrl address) =
            Some (Display.WalletBalance.Amount text, url) ->
            false = false /\
            (exists lamports,
               balanceLamports (state h) = Some lamports /\
               text = formatBalance NT (div lamports LAMPORTS_PER_SOL) ++ lit " SOL") /\
            url = Display.getAccountExplorerUrl address).
  { intros b Hb E. inversion E; subst. split; [reflexivity|]. split; [|reflexivity].
    rewrite Hb in F. destruct (balanceLamports (state h)) as [lamports|];
      [|discriminate F].
    exists lamports. cbn in F. inversion F. auto. }
  destruct (error (state h)) as [e|].
  - destruct (truthy e); [discriminate|].
    destruct (balance (state h)) as [b|] eqn:Hb; [|discriminate].
    now apply A.
  - destruct (balance (state h)) as [b|] eqn:Hb; [|discriminate].
    now apply A.
Qed.

Lemma amount_shown_is_current_witness :
  let NT := fun _ : number => @nil codeunit in
  let h := run (fun _ => None) initial
             [Mount (Some (lit "A")); Resolve 0 (ofZ 1230000000)] in
  isLoading (state h) = false /\
  (exists lamports,
     balanceLamports (state h) = Some lamports /\
     lit "1.23 SOL" = formatBalance NT (div lamports LAMPORTS_PER_SOL) ++ lit " SOL") /\
  lit "https://explorer.solana.com/address/A?cluster=devnet" =
    Display.getAccountExplorerUrl (lit "A").
Proof.
  apply (@amount_shown_is_current (fun _ => None) (fun _ => [])
           [Mount (Some (lit "A")); Resolve 0 (ofZ 1230000000)]
           (lit "A") (lit "1.23 SOL")
           (lit "https://explorer.solana.com/address/A?cluster=devnet")).
  vm_compute. reflexivity.
Defined.

End BalanceTheory.

(** ** The wallet hook and the provider *)

Module LazorkitTheory.
Import Js Eff Lazorkit Reference EffTheory.
Local Open Scope eff_scope.

Lemma applyAll_split (st : LocalState) (t t' : list event) :
  applyAll st (t ++ t') = applyAll (applyAll st t) t'.
Proof. apply fold_left_app. Qed.

Section Events.

Variable P : event -> bool.
Hypothesis P_await : forall p, P (Await p) = true.
Hypothesis P_notify : forall s, P (Notify s) = true.
Hypothesis P_config : forall c, P (SetConfig c) = true.

Lemma all_bind {A B} (m : M event A) (k : A -> M event B) :
  forallb P (trace m) = true ->
  (forall a, forallb P (trace (k a)) = true) ->
  forallb P (trace (bind m k)) = true.
Proof.
  intros Hm Hk. rewrite trace_bind, forallb_app, Hm.
  destruct (outcome m); [apply Hk | reflexivity].
Qed.

Lemma all_notified (l : list StoreState) :
  forallb P (map Notify l) = true.
Proof. induction l as [|s l IH]; cbn; [reflexivity|]. now rewrite P_notify. Qed.

Lemma all_call (w : Env) (p : awaited) :
  forallb P (trace (call w p)) = true.
Proof.
  unfold call. destruct (settles w p); cbn; try reflexivity;
    rewrite ?app_nil_r, P_await; apply all_notified.
Qed.

Lemma all_initialize (w : Env) :
  forallb P (trace (initializeLazorkitStore w)) = true.
Proof.
  unfold initializeLazorkitStore. apply all_bind; [apply all_call|].
  intros _. destruct (hasSetConfig w); [|reflexivity].
  destruct (setConfig_throws w (config w)); cbn; now rewrite P_config.
Qed.

Lemma all_awaitAsync (w : Env) (p : awaited) (m : M event unit) :
  forallb P (trace m) = true ->
  forallb P (trace (awaitAsync w p m)) = true.
Proof.
  destruct m as [t r]; cbn. intros H.
  rewrite forallb_app, H. cbn. rewrite P_await. apply all_notified.
Qed.

Lemma all_loginTry (w : Env) : forallb P (trace (loginTry w)) = true.
Proof.
  unfold loginTry.
  apply all_bind; [apply all_call | intros _].
  apply all_bind; [apply all_awaitAsync, all_initialize | intros _].
  apply all_bind; [apply all_call | intros _]. apply all_call.
Qed.

Lemma all_logoutTry (w : Env) : forallb P (trace (logoutTry w)) = true.
Proof.
  unfold logoutTry.
  apply all_bind; [apply all_call | intros _]. apply all_call.
Qed.

Hypothesis P_remove : forall key, P (RemoveItem key) = true.

Lemma all_removeItem (w : Env) (key : jsstring) :
  forallb P (trace (removeItem w key)) = true.
Proof.
  unfold removeItem. destruct (removeItem_throws w key); cbn;
    now rewrite P_remove.
Qed.

Lemma all_createWalletTry (w : Env) :
  forallb P (trace (createWalletTry w)) = true.
Proof.
  unfold createWalletTry.
  apply all_bind.
  - destruct (windowDefined w); [|reflexivity].
    repeat (apply all_bind; [apply all_removeItem | intros _]).
    apply all_removeItem.
  - intros _.
    apply all_bind; [apply all_call | intros _].
    apply all_bind; [apply all_awaitAsync, all_initialize | intros _].
    apply all_bind; [apply all_call | intros _]. apply all_call.
Qed.

Lemma all_tryBlock (a : action) (w : Env) :
  forallb P (trace (tryBlock a w)) = true.
Proof.
  destruct a; [apply all_createWalletTry | apply all_loginTry | apply all_logoutTry].
Qed.

End Events.

(** The shape of an action: the two setters, the [try] block with its
    handler, and the [finally] setter. *)
Lemma perform_shape (a : action) (w : Env) :
  exists h : value -> list event,
    (forall err, exists pre,
        h err = pre ++ [SetLocalError (Some (Errors.transformError err))] /\
        forallb reports (h err) = true) /\
    perform a w =
      (SetLocalError None :: SetIsOperating true ::
       trace (tryBlock a w) ++
       match outcome (tryBlock a w) with
       | inl _ => []
       | inr err => h err
       end ++ [SetIsOperating false],
       inl tt).
Proof.
  destruct a; cbn [perform tryBlock].
  - exists (fun err => [ConsoleError (lit "Create wallet error:") err;
                        SetLocalError (Some (Errors.transformError err))]).
    split.
    + intros err. eexists [_]. split; reflexivity.
    + unfold createWallet. destruct (createWalletTry w) as [t [[]|err]]; cbn;
        rewrite <- ?app_assoc; reflexivity.
  - exists (fun err => [ConsoleError (lit "Login error:") err;
                        SetLocalError (Some (Errors.transformError err))]).
    split.
    + intros err. eexists [_]. split; reflexivity.
    + unfold login. destruct (loginTry w) as [t [[]|err]]; cbn;
        rewrite <- ?app_assoc; reflexivity.
  - exists (fun err => [SetLocalError (Some (Errors.transformError err))]).
    split.
    + intros err. exists []. split; reflexivity.
    + unfold logout. destruct (logoutTry w) as [t [[]|err]]; cbn;
        rewrite <- ?app_assoc; reflexivity.
Qed.

(** C6: whatever the external operations of [createWallet], [login] and
    [logout] do (resolve, reject or throw), [isOperating] is false after the
    action, and when its [try] block failed with [err] the local error is
    then [transformError(err)]. *)
Theorem action_leaves_idle (a : action) (w : Env) (st : LocalState) :
  let final := applyAll st (trace (perform a w)) in
  isOperating final = false /\
  (forall err, outcome (tryBlock a w) = inr err ->
     localError final = Some (Errors.transformError err)).
Proof.
  destruct (perform_shape a w) as (h & Hh & E). rewrite E. cbn [trace fst].
  split.
  - change (SetLocalError None :: SetIsOperating true ::
            trace (tryBlock a w) ++
            match outcome (tryBlock a w) with
            | inl _ => []
            | inr err => h err
            end ++ [SetIsOperating false])
      with ([SetLocalError None; SetIsOperating true] ++
            trace (tryBlock a w) ++
            match outcome (tryBlock a w) with
            | inl _ => []
            | inr err => h err
            end ++ [SetIsOperating false]).
    rewrite !applyAll_split. reflexivity.
  - intros err Herr. rewrite Herr.
    destruct (Hh err) as (pre & Hpre & _). rewrite Hpre.
    change (SetLocalError None :: SetIsOperating true ::
            trace (tryBlock a w) ++
            (pre ++ [SetLocalError (Some (Errors.transformError err))]) ++
            [SetIsOperating false])
      with ([SetLocalError None; SetIsOperating true] ++
            trace (tryBlock a w) ++
            (pre ++ [SetLocalError (Some (Errors.transformError err))]) ++
            [SetIsOperating false]).
    rewrite !applyAll_split. reflexivity.
Qed.

(** Creating a wallet when the passkey prompt is dismissed. *)
Lemma action_leaves_idle_witness :
  let err := newError (lit "NotAllowedError: The operation was cancelled") in
  let w := quiet (fun p => match p with
                           | Connect _ => Rejects err
                           | _ => Resolves
                           end) in
  let final := applyAll initialState (trace (perform CreateWallet w)) in
  outcome (tryBlock CreateWallet w) = inr err /\
  isOperating final = false /\
  localError final = Some (lit "Passkey operation was cancelled or not allowed.").
Proof.
  cbv zeta. split; [reflexivity|].
  pose proof (@action_leaves_idle CreateWallet
                (quiet (fun p => match p with
                                 | Connect _ =>
                                     Rejects (newError (lit "NotAllowedError: The operation was cancelled"))
                                 | _ => Resolves
                                 end))
                initialState) as H.
  cbv zeta in H. destruct H as [H1 H2]. split; [exact H1|].
  rewrite (H2 _ eq_refl). vm_compute. reflexivity.
Defined.

Lemma keeps_applyAll (t : list event) (st : LocalState) :
  forallb keepsOperating t = true ->
  isOperating (applyAll st t) = isOperating st.
Proof.
  revert st; induction t as [|ev t IH]; intros st H; [reflexivity|].
  cbn in H. apply andb_true_iff in H. destruct H as [Hev Ht].
  cbn [applyAll fold_left]. change (fold_left apply t (apply st ev))
    with (applyAll (apply st ev) t).
  rewrite (IH _ Ht). destruct ev; try reflexivity; try discriminate Hev.
  cbn. destruct (store_error s); reflexivity.
Qed.

Lemma forallb_firstn {A} (P : A -> bool) (n : nat) (l : list A) :
  forallb P l = true -> forallb P (firstn n l) = true.
Proof.
  revert l; induction n as [|n IH]; intros [|x l]; cbn; auto.
  intros H. apply andb_true_iff in H. destruct H as [Hx Hl].
  rewrite Hx. now apply IH.
Qed.

Lemma forallb_weaken {A} (P Q : A -> bool) (l : list A) :
  (forall x, P x = true -> Q x = true) ->
  forallb P l = true -> forallb Q l = true.
Proof.
  intros HPQ. induction l as [|x l IH]; cbn; [reflexivity|].
  intros H. apply andb_true_iff in H. destruct H as [Hx Hl].
  now rewrite (HPQ _ Hx), IH.
Qed.

(** The events between the first two setters of an action and its last. *)
Lemma perform_middle (a : action) (w : Env) :
  exists mid,
    trace (perform a w) =
      SetLocalError None :: SetIsOperating true :: mid ++ [SetIsOperating false] /\
    forallb keepsOperating mid = true /\
    (a <> CreateWallet -> forallb keepsStorage mid = true).
Proof.
  destruct (perform_shape a w) as (h & Hh & E). rewrite E. cbn [trace fst].
  exists (trace (tryBlock a w) ++
          match outcome (tryBlock a w) with
          | inl _ => []
          | inr err => h err
          end).
  split; [now rewrite <- app_assoc|]. split.
  - rewrite forallb_app. apply andb_true_iff. split.
    + apply all_tryBlock; reflexivity.
    + destruct (outcome (tryBlock a w)) as [|err]; [reflexivity|].
      destruct (Hh err) as (_ & _ & R).
      apply (forallb_weaken reports); [|exact R].
      intros [] Hx; try reflexivity; discriminate Hx.
  - intros Ha. rewrite forallb_app. apply andb_true_iff. split.
    + destruct a; [congruence | apply all_loginTry | apply all_logoutTry];
        reflexivity.
    + destruct (outcome (tryBlock a w)) as [|err]; [reflexivity|].
      destruct (Hh err) as (_ & _ & R).
      apply (forallb_weaken reports); [|exact R].
      intros [] Hx; try reflexivity; discriminate Hx.
Qed.

(** From the second setter of an action up to its [finally], the published
    [isLoading] is true, whatever the store reports meanwhile. *)
Theorem busy_while_operating (a : action) (w : Env) (st : LocalState) (n : nat) :
  (2 <= n < List.length (trace (perform a w)))%nat ->
  isLoading (applyAll st (firstn n (trace (perform a w)))) = true.
Proof.
  destruct (perform_middle a w) as (mid & E & K & _). rewrite E.
  intros [Hn Hlen]. cbn [List.length] in Hlen. rewrite length_app in Hlen.
  cbn [List.length] in Hlen.
  destruct n as [|[|n]]; try lia.
  cbn [firstn]. rewrite firstn_app.
  replace (n - List.length mid)%nat with 0%nat by lia.
  cbn [firstn]. rewrite app_nil_r.
  cbn [applyAll fold_left].
  change (fold_left apply (firstn n mid)
            (apply (apply st (SetLocalError None)) (SetIsOperating true)))
    with (applyAll (apply (apply st (SetLocalError None)) (SetIsOperating true))
            (firstn n mid)).
  unfold isLoading. rewrite keeps_applyAll by (apply forallb_firstn, K).
  cbn. now rewrite orb_true_r.
Qed.

Lemma busy_while_operating_witness :
  isLoading
    (applyAll initialState
       (firstn 3 (trace (perform Login (quiet (fun _ => Resolves)))))) = true.
Proof.
  apply (@busy_while_operating Login (quiet (fun _ => Resolves)) initialState 3).
  vm_compute. split; [lia|]. repeat constructor.
Defined.

(** The promises of [createWallet], [login], [logout], of the hook's
    [initStore] and of the provider's [init] never reject: every failure
    inside them is caught. *)
Theorem failures_are_caught (a : action) (w : Env) (s : StoreState) :
  outcome (perform a w) = inl tt /\
  outcome (initStore w s) = inl tt /\
  outcome (init w) = inl tt.
Proof.
  split; [|split].
  - destruct (perform_shape a w) as (h & _ & E). now rewrite E.
  - unfold initStore.
    destruct (call w (ImportWallet FInitStore)) as [t [[]|err]]; reflexivity.
  - unfold init, awaitAsync.
    destruct (initializeLazorkitStore w) as [t [[]|err]]; reflexivity.
Qed.

(** [login] and [logout] never call [localStorage.removeItem], and
    [createWallet] does not either when there is no [window]; with a window
    and a working [localStorage], [createWallet] removes the four wallet
    keys before it awaits anything. *)
Theorem storage_cleared_by_createWallet (w : Env) :
  forallb keepsStorage (trace (login w)) = true /\
  forallb keepsStorage (trace (logout w)) = true /\
  (windowDefined w = true ->
   (forall key, removeItem_throws w key = None) ->
   firstn 6 (trace (createWallet w)) =
     [SetLocalError None; SetIsOperating true;
      RemoveItem (lit "lazorkit-wallet"); RemoveItem (lit "CREDENTIAL_ID");
      RemoveItem (lit "PUBLIC_KEY"); RemoveItem (lit "SMART_WALLET_ADDRESS")]).
Proof.
  split; [|split].
  - destruct (perform_middle Login w) as (mid & E & _ & S).
    cbn [perform] in E. rewrite E. cbn. rewrite forallb_app, S by discriminate.
    reflexivity.
  - destruct (perform_middle Logout w) as (mid & E & _ & S).
    cbn [perform] in E. rewrite E. cbn. rewrite forallb_app, S by discriminate.
    reflexivity.
  - intros Hw Hr. unfold createWallet.
    rewrite !trace_bind. cbn [trace emit fst outcome snd app].
    unfold tryFinally, tryCatch, createWalletTry. rewrite Hw.
    unfold removeItem. rewrite !Hr. cbn [orThrow].
    set (rest := call w (ImportProvider FCreateWallet) ;; _).
    destruct rest as [t [[]|err]]; reflexivity.
Qed.

Lemma storage_cleared_by_createWallet_witness :
  firstn 6 (trace (createWallet (quiet (fun _ => Resolves)))) =
    [SetLocalError None; SetIsOperating true;
     RemoveItem (lit "lazorkit-wallet"); RemoveItem (lit "CREDENTIAL_ID");
     RemoveItem (lit "PUBLIC_KEY"); RemoveItem (lit "SMART_WALLET_ADDRESS")].
Proof.
  destruct (storage_cleared_by_createWallet (quiet (fun _ => Resolves)))
    as (_ & _ & H).
  apply H; reflexivity.
Defined.

Lemma apply_restore (st : LocalState) (ev : event) :
  isRestoring (apply st ev) = isRestoring st /\
  hasAttemptedRestore (apply st ev) = hasAttemptedRestore st.
Proof.
  destruct ev; cbn; auto. destruct (store_error s); cbn; auto.
Qed.

Lemma applyAll_restore (t : list event) (st : LocalState) :
  isRestoring (applyAll st t) = isRestoring st /\
  hasAttemptedRestore (applyAll st t) = hasAttemptedRestore st.
Proof.
  revert st; induction t as [|ev t IH]; intros st; [now split|].
  cbn [applyAll fold_left].
  change (fold_left apply t (apply st ev)) with (applyAll (apply st ev) t).
  destruct (IH (apply st ev)) as [A B]. destruct (apply_restore st ev) as [C D].
  split; congruence.
Qed.

(** In every state the hook reaches, [isRestoring] is false and
    [hasAttemptedRestore] is true (nothing ever sets them), so the
    published [isLoading] is [sdkIsLoading || isOperating]. *)
Theorem restore_flags_constant (st : LocalState) :
  reachable st ->
  isRestoring st = false /\ hasAttemptedRestore st = true /\
  isLoading st = sdkIsLoading st || isOperating st.
Proof.
  intros H.
  assert (A : isRestoring st = false /\ hasAttemptedRestore st = true).
  { induction H as [|st w s n _ IH|st a w n _ IH|st _ IH|st s _ IH].
    - now split.
    - destruct (applyAll_restore (firstn n (trace (initStore w s))) st) as [A B].
      rewrite A, B. exact IH.
    - destruct (applyAll_restore (firstn n (trace (perform a w))) st) as [A B].
      rewrite A, B. exact IH.
    - destruct (applyAll_restore (trace clearError) st) as [A B].
      rewrite A, B. exact IH.
    - destruct (apply_restore st (Notify s)) as [A B]. rewrite A, B. exact IH. }
  destruct A as [A B]. split; [exact A|]. split; [exact B|].
  unfold isLoading. rewrite A. apply orb_false_r.
Qed.

Lemma restore_flags_constant_witness :
  let st := applyAll initialState
              (firstn 2 (trace (perform Logout (quiet (fun _ => Resolves))))) in
  isRestoring st = false /\ hasAttemptedRestore st = true /\
  isLoading st = sdkIsLoading st || isOperating st.
Proof.
  apply restore_flags_constant. apply reach_perform. apply reach_initial.
Defined.

Lemma ready_last (t : list event) (b : bool) :
  fold_left applyReady (t ++ [SetIsReady true]) b = true.
Proof. now rewrite fold_left_app. Qed.

(** The provider becomes ready whether or not the SDK store could be
    initialised: after [init], [isReady] is true. *)
Theorem provider_becomes_ready (w : Env) (isReady : bool) :
  fold_left applyReady (trace (init w)) isReady = true.
Proof.
  unfold init, awaitAsync.
  destruct (initializeLazorkitStore w) as [t [[]|err]];
    cbn [tryCatch bind emit trace fst].
  - apply ready_last.
  - rewrite app_assoc. apply ready_last.
Qed.

Lemma failures_are_caught_witness :
  let w := quiet (fun _ => Throws (newError (lit "Failed to fetch"))) in
  outcome (perform CreateWallet w) = inl tt /\
  localError (applyAll initialState (trace (perform CreateWallet w))) =
    Some (lit "Network error. Please check your connection.").
Proof.
  split.
  - apply (failures_are_caught CreateWallet
             (quiet (fun _ => Throws (newError (lit "Failed to fetch"))))
             {| wallet := None; store_isLoading := false; isConnecting := false;
                store_error := None |}).
  - vm_compute. reflexivity.
Defined.

End LazorkitTheory.
